(** * OVA visual insights backend: model of the analysis pipeline

    A shallow embedding of the TypeScript services of the backend
    (aiService.ts, pythonSandboxService.ts, fileProcessingService.ts and the
    results / analysis controllers) together with the properties the design
    document states about them.

    JavaScript strings are sequences of UTF-16 code units; they are modelled
    as lists of code units ([N]).  The three working directories of the
    backend (temp, output, uploads) are flat directories of regular files and
    are modelled as finite maps from file names to files. *)

From Stdlib Require Import String Ascii DecimalString QArith.
From stdpp Require Import gmap list fin_maps.

(** ** JavaScript strings *)

Module JS.
Local Open Scope N_scope.

Abbreviation jstring := (list N).

(** A source-code literal (ASCII) as a sequence of code units. *)
Definition str (s : string) : jstring :=
  N_of_ascii <$> list_ascii_of_string s.

(** ECMAScript [WhiteSpace] and [LineTerminator] code points: the class
    [\s] of regular expressions, and what [String.prototype.trim] strips. *)
Definition is_space (c : N) : bool :=
  (c =? 9) || (c =? 10) || (c =? 11) || (c =? 12) || (c =? 13) ||
  (c =? 32) || (c =? 160) || (c =? 5760) ||
  ((8192 <=? c) && (c <=? 8202)) ||
  (c =? 8232) || (c =? 8233) || (c =? 8239) || (c =? 8287) ||
  (c =? 12288) || (c =? 65279).

Fixpoint trimStart (s : jstring) : jstring :=
  match s with
  | c :: s' => if is_space c then trimStart s' else s
  | [] => []
  end.

Definition trimEnd (s : jstring) : jstring := reverse (trimStart (reverse s)).

(** [s.trim()] *)
Definition trim (s : jstring) : jstring := trimEnd (trimStart s).

(** Truthiness of a string: only the empty string is falsy. *)
Definition truthy (s : jstring) : bool :=
  match s with [] => false | _ => true end.

(** [a || b] on strings. *)
Definition or_else (a b : jstring) : jstring := if truthy a then a else b.

(** [s.startsWith(p)] *)
Fixpoint startsWith (p s : jstring) : bool :=
  match p, s with
  | [], _ => true
  | a :: p', b :: s' => (a =? b) && startsWith p' s'
  | _ :: _, [] => false
  end.

(** [s.includes(p)] *)
Fixpoint includes (s p : jstring) : bool :=
  startsWith p s || match s with [] => false | _ :: s' => includes s' p end.

(** [s.toLowerCase()] on the letters A-Z.  Code units outside A-Z are left
    as they are: exact on ASCII text, and exact for the comparisons of the
    source, whose ASCII literals (extensions) are made of letters that no
    code unit outside A-Z lower-cases into. *)
Definition lowerUnit (c : N) : N :=
  if (65 <=? c) && (c <=? 90) then c + 32 else c.

Definition toLowerCase (s : jstring) : jstring := lowerUnit <$> s.

(** [s.split(sep)] for a one-unit separator. *)
Fixpoint split (sep : N) (s : jstring) : list jstring :=
  match s with
  | [] => [[]]
  | c :: s' =>
      if c =? sep then [] :: split sep s'
      else match split sep s' with
           | piece :: pieces => (c :: piece) :: pieces
           | [] => [[c]]
           end
  end.

(** [s.split('.').pop()] *)
Definition lastPiece (sep : N) (s : jstring) : jstring :=
  List.last (split sep s) [].

(** The decimal text of a non-negative integer, as [`${n}`] gives it. *)
Definition decimal (n : N) : jstring :=
  str (NilEmpty.string_of_uint (N.to_uint n)).

Definition is_digit (c : N) : bool := (48 <=? c) && (c <=? 57).

(** [path.join(dir, name)] for a normalized directory and a plain name. *)
Definition join (dir name : jstring) : jstring := dir ++ str "/" ++ name.

(** The name without its extension: everything before the last dot. *)
Fixpoint stem (s : jstring) : jstring :=
  match s with
  | [] => []
  | c :: s' =>
      if existsb (N.eqb 46) s' then c :: stem s'
      else if c =? 46 then [] else c :: stem s'
  end.

(** The text form of a [uuidv4()] value: 36 units, dashes at 8, 13, 18 and
    23, lower-case hexadecimal digits elsewhere. *)
Definition is_hex (c : N) : bool :=
  ((48 <=? c) && (c <=? 57)) || ((97 <=? c) && (c <=? 102)).

Definition dashAt (i : nat) : bool :=
  bool_decide (i = 8 ∨ i = 13 ∨ i = 18 ∨ i = 23)%nat.

Fixpoint uuidFrom (i : nat) (s : jstring) : bool :=
  match s with
  | [] => bool_decide (i = 36%nat)
  | c :: s' => (if dashAt i then c =? 45 else is_hex c) && uuidFrom (S i) s'
  end.

Definition is_uuid (s : jstring) : bool := uuidFrom 0 s.

(** A thrown value: an [Error] object with its message, or something else. *)
Inductive thrown := ErrorObject (message : jstring) | OtherValue.

(** [error instanceof Error ? error.message : fallback] *)
Definition messageOf (t : thrown) (fallback : jstring) : jstring :=
  match t with
  | ErrorObject message => message
  | OtherValue => fallback
  end.

End JS.

Import JS.

(** ** The file system

    Three flat directories of regular files, keyed by file name.  Time stamps
    are milliseconds since the epoch. *)

Module Fs.

Record file := File { content : jstring; mtime : N }.

Record world := World {
  tempFiles : gmap (list N) file;      (* <cwd>/temp *)
  outputFiles : gmap (list N) file;    (* <cwd>/output *)
  uploadFiles : gmap (list N) file     (* <cwd>/uploads *)
}.

Definition withTemp (w : world) (d : gmap (list N) file) : world :=
  World d (outputFiles w) (uploadFiles w).
Definition withOutput (w : world) (d : gmap (list N) file) : world :=
  World (tempFiles w) d (uploadFiles w).
Definition withUploads (w : world) (d : gmap (list N) file) : world :=
  World (tempFiles w) (outputFiles w) d.

(** [existsSync(join(dir, name))] *)
Definition existsSync (d : gmap (list N) file) (name : jstring) : bool :=
  bool_decide (is_Some (d !! name)).

(** [readdirSync(dir)]: the names, in the order the system lists them. *)
Definition readdirSync (d : gmap (list N) file) : list jstring :=
  (map_to_list d).*1.

(** What the environment supplies to one call of a service: the value of
    [uuidv4()] (drawn from the random source), the value of [Date.now()],
    and whether writing a file fails. *)
Record env := Env {
  uuid : jstring;
  now : N;
  writeError : option thrown
}.

Definition atTime (e : env) (t : N) : env := Env (uuid e) t (writeError e).

(** [writeFileSync(join(dir, name), text)] *)
Definition writeFileSync (e : env) (d : gmap (list N) file)
    (name text : jstring) : thrown + gmap (list N) file :=
  match writeError e with
  | Some t => inl t
  | None => inr (<[name := File text (now e)]> d)
  end.

End Fs.

Import Fs.

(** ** fileProcessingService.ts *)

Module FileProcessing.

(** A JavaScript number: a finite value, NaN, or an infinity. *)
Inductive number := Finite (q : Q) | NaN | Infinity (negative : bool).

(** The values found in the cells of a parsed file. *)
Inductive cell :=
| CUndefined
| CNull
| CString (s : jstring)
| CNumber (n : number)
| CBoolean (b : bool)
| CDate (time : option N).          (* [None]: an invalid date *)

Record DatasetInfo := {
  id : jstring;
  filename : jstring;
  originalName : jstring;
  columns : list jstring;
  dataTypes : gmap (list N) (list N);
  rowCount : nat;
  sampleData : list (list cell);
  filePath : jstring;
  uploadTime : N;
  fileSize : N
}.

Record FileUploadResult := {
  success : bool;
  datasetInfo : option DatasetInfo;
  error : option jstring
}.

(** [Express.Multer.File], the fields the service reads. *)
Record MulterFile := {
  mfilename : jstring;
  originalname : jstring;
  size : N;
  mimetype : jstring
}.

(** A file as the client sends it. *)
Record clientFile := {
  clientName : jstring;
  clientType : jstring;
  clientData : jstring
}.

Definition allowedExtensions : list jstring :=
  [str ".csv"; str ".xlsx"; str ".xls"].

(** [val !== null && val !== undefined && val !== ''] *)
Definition nonEmpty (val : cell) : bool :=
  match val with
  | CNull | CUndefined | CString [] => false
  | _ => true
  end.

(** [typeof v === 'number'] *)
Definition typeofNumber (v : cell) : bool :=
  match v with CNumber _ => true | _ => false end.

(** [v instanceof Date] *)
Definition instanceofDate (v : cell) : bool :=
  match v with CDate _ => true | _ => false end.

(** [parseCSVLine]: the loop over the code units of the line. *)
Fixpoint parseCSVLoop (line : jstring) (result : list jstring)
    (current : jstring) (inQuotes : bool) : list jstring :=
  match line with
  | [] => result ++ [trim current]
  | char :: line' =>
      if (char =? 34)%N then
        parseCSVLoop line' result current (negb inQuotes)
      else if (char =? 44)%N && negb inQuotes then
        parseCSVLoop line' (result ++ [trim current]) [] inQuotes
      else
        parseCSVLoop line' result (current ++ [char]) inQuotes
  end.

Definition parseCSVLine (line : jstring) : list jstring :=
  parseCSVLoop line [] [] false.

Section service.
(** [process.cwd()] *)
Context (cwd : jstring).
(** [!isNaN(Number(s))] for a string [s]. *)
Context (numericString : jstring → bool).
(** [!isNaN(Date.parse(v))] *)
Context (parsesAsDate : cell → bool).
(** [path.extname] *)
Context (extname : jstring → jstring).
(** [XLSX.readFile] followed by [sheet_to_json] with [header: 1] on the
    first worksheet ([None]: the workbook has no worksheet); reading may
    throw. *)
Context (sheetRows : jstring → thrown + option (list (list cell))).
(** The header row of a sheet taken as strings (the cast of the source). *)
Context (headerNames : list cell → list jstring).

Definition uploadDir : jstring := join cwd (str "uploads").

(** [!isNaN(Number(v))] *)
Definition numberLike (v : cell) : bool :=
  match v with
  | CString s => numericString s
  | CNumber NaN => false
  | CNumber _ => true
  | CBoolean _ => true              (* Number(true) is 1 *)
  | CNull => true                   (* Number(null) is 0 *)
  | CUndefined => false             (* Number(undefined) is NaN *)
  | CDate time => bool_decide (is_Some time)
  end.

(** The three-way test of [inferDataTypes] on the sample value. *)
Definition inferType (sampleValue : cell) : jstring :=
  if typeofNumber sampleValue || numberLike sampleValue then str "number"
  else if instanceofDate sampleValue || parsesAsDate sampleValue
       then str "date"
       else str "string".

(** [dataRows.map(row => row[colIndex]).filter(...)] *)
Definition columnValues (dataRows : list (list cell)) (colIndex : nat)
  : list cell :=
  List.filter nonEmpty
    ((λ row, default CUndefined (row !! colIndex)) <$> dataRows).

(** The body of the [forEach] callback: the type given to one column. *)
Definition inferColumn (dataRows : list (list cell)) (colIndex : nat)
  : jstring :=
  match columnValues dataRows colIndex with
  | [] => str "string"
  | sampleValue :: _ => inferType sampleValue
  end.

Definition inferDataTypes (headers : list jstring)
    (dataRows : list (list cell)) : gmap (list N) (list N) :=
  foldl (λ dataTypes '(colIndex, header),
           <[header := inferColumn dataRows colIndex]> dataTypes)
    ∅ (imap (λ colIndex header, (colIndex, header)) headers).

Definition processCSVFile (e : env) (csvContent filePath : jstring)
    (file : MulterFile) : thrown + DatasetInfo :=
  let lines : list jstring :=
    List.filter (λ line, truthy (trim line)) (split 10 csvContent) in
  if (length lines <? 2)%nat then
    inl (ErrorObject
           (str "CSV file must contain at least a header row and one data row"))
  else
    let headers := parseCSVLine (default [] (lines !! 0%nat)) in
    let dataRows : list (list jstring) :=
      parseCSVLine <$> drop 1 lines in
    let validDataRows : list (list jstring) :=
      List.filter (λ row, existsb (λ cell, truthy (trim cell)) row)
        dataRows in
    let typedRows : list (list cell) :=
      (λ row : list jstring, CString <$> row) <$> validDataRows in
    let dataTypes := inferDataTypes headers typedRows in
    let sampleData := take 5 typedRows in
    inr {| id := uuid e;
           filename := mfilename file;
           originalName := originalname file;
           columns := headers;
           dataTypes := dataTypes;
           rowCount := length validDataRows;
           sampleData := sampleData;
           filePath := filePath;
           uploadTime := now e;
           fileSize := size file |}.

(** [cell !== null && cell !== undefined && cell !== ''] is [nonEmpty]. *)
Definition processExcelFile (e : env) (content filePath : jstring)
    (file : MulterFile) : thrown + DatasetInfo :=
  let wrap (t : thrown) : thrown :=
    ErrorObject (str "Excel processing failed: "
                 ++ messageOf t (str "Unknown error")) in
  match sheetRows content with
  | inl t => inl (wrap t)
  | inr None => inl (wrap (ErrorObject (str "No worksheet found in Excel file")))
  | inr (Some jsonData) =>
      if (length jsonData <? 2)%nat then
        inl (wrap (ErrorObject
                     (str "Excel file must contain at least a header row and one data row")))
      else
        let headers := headerNames (default [] (jsonData !! 0%nat)) in
        let dataRows := drop 1 jsonData in
        let validDataRows :=
          List.filter (λ row, existsb nonEmpty row) dataRows in
        let dataTypes := inferDataTypes headers validDataRows in
        let sampleData := take 5 validDataRows in
        inr {| id := uuid e;
               filename := mfilename file;
               originalName := originalname file;
               columns := headers;
               dataTypes := dataTypes;
               rowCount := length validDataRows;
               sampleData := sampleData;
               filePath := filePath;
               uploadTime := now e;
               fileSize := size file |}
  end.

Definition processUploadedFile (e : env) (w : world) (file : MulterFile)
  : FileUploadResult * world :=
  let filePath := join uploadDir (mfilename file) in
  let attempt : thrown + DatasetInfo :=
    match uploadFiles w !! mfilename file with
    | None => inl (ErrorObject (str "ENOENT"))      (* statSync throws *)
    | Some stored =>
        if bool_decide (mimetype file = str "text/csv")
           || bool_decide (toLowerCase (extname (originalname file))
                           = str ".csv")
        then processCSVFile e (content stored) filePath file
        else processExcelFile e (content stored) filePath file
    end in
  match attempt with
  | inr info =>
      ({| success := true; datasetInfo := Some info; error := None |}, w)
  | inl t =>
      (* clean up the uploaded file on error *)
      ({| success := false;
          datasetInfo := None;
          error := Some (messageOf t (str "File processing failed")) |},
       if existsSync (uploadFiles w) (mfilename file)
       then withUploads w (delete (mfilename file) (uploadFiles w))
       else w)
  end.

Definition getMimeType (name : jstring) : jstring :=
  let ext := toLowerCase (extname name) in
  if bool_decide (ext = str ".csv") then str "text/csv"
  else if bool_decide (ext = str ".xlsx") then
    str "application/vnd.openxmlformats-officedocument.spreadsheetml.sheet"
  else if bool_decide (ext = str ".xls") then str "application/vnd.ms-excel"
  else str "application/octet-stream".

(** [getDatasetInfo]: the first listed file whose name contains the id
    is processed again. *)
Definition getDatasetInfo (e : env) (w : world) (datasetId : jstring)
  : option DatasetInfo * world :=
  let files := readdirSync (uploadFiles w) in
  match List.find (λ file, includes file datasetId) files with
  | Some file =>
      match uploadFiles w !! file with
      | Some stats =>
          let mockFile :=
            {| mfilename := file;
               originalname := file;
               size := N.of_nat (length (content stats));
               mimetype := getMimeType file |} in
          let '(result, w') := processUploadedFile e w mockFile in
          (datasetInfo result, w')
      | None => (None, w)            (* statSync throws; caught *)
      end
  | None => (None, w)
  end.

(** The upload middleware: the file filter, the size limit and the disk
    storage with its generated name. *)
Definition uniqueName (e : env) (originalName : jstring) : jstring :=
  uuid e ++ str "-" ++ decimal (now e) ++ extname originalName.

Definition fileFilter (originalName : jstring) : bool :=
  bool_decide (toLowerCase (extname originalName) ∈ allowedExtensions).

Definition upload (e : env) (w : world) (f : clientFile)
  : thrown + (MulterFile * world) :=
  if negb (fileFilter (clientName f)) then
    inl (ErrorObject
           (str "File type " ++ toLowerCase (extname (clientName f))
            ++ str " is not allowed. Please upload CSV or Excel files."))
  else if (52428800 <? N.of_nat (length (clientData f)))%N then
    inl (ErrorObject (str "File too large"))
  else
    let name := uniqueName e (clientName f) in
    match writeFileSync e (uploadFiles w) name (clientData f) with
    | inl t => inl t
    | inr uploads' =>
        inr ({| mfilename := name;
                originalname := clientName f;
                size := N.of_nat (length (clientData f));
                mimetype := clientType f |},
             withUploads w uploads')
    end.

End service.

(** The shape of a name given by the upload middleware: a uuid (the stem
    id), a dash, and a tail (time stamp and extension) without dashes. *)
Definition middlewareName (name stemId : jstring) : Prop :=
  ∃ tail, name = stemId ++ str "-" ++ tail ∧
          is_uuid stemId = true ∧ 45%N ∉ tail.

(** Every stored upload was named by the middleware, and none has
    [datasetId] as its stem id. *)
Definition freshFor (w : world) (datasetId : jstring) : Prop :=
  ∀ name, is_Some (uploadFiles w !! name) →
          ∃ stemId, middlewareName name stemId ∧ stemId ≠ datasetId.

End FileProcessing.

(** ** Regular expressions: the backtracking matcher of ECMAScript

    The fragment used by the response parser: single code units, sequence,
    alternation, greedy and lazy star, one capture group, positive lookahead
    and the end-of-input assertion.  The matcher is written in
    continuation-passing style, as the ECMAScript specification defines it:
    the continuation receives the state reached so far and either completes
    the match or fails, which makes the matcher try its next alternative. *)

Module Regex.

Inductive regex : Type :=
| Unit (p : N → bool)              (* one code unit satisfying [p] *)
| Empty
| Seq (r1 r2 : regex)
| Alt (r1 r2 : regex)
| Star (greedy : bool) (r : regex)
| Group (r : regex)                (* capture group 1 *)
| Lookahead (r : regex)            (* (?=r) *)
| EndOfInput.                      (* $ without the m flag *)

(** Matcher state: the input not yet consumed, and capture 1. *)
Record mstate := MState { rest : jstring; capture : option jstring }.

Definition orElse {A} (a b : option A) : option A :=
  match a with Some _ => a | None => b end.

(** The iteration of [r*] (greedy) and [r*?] (lazy); [m] is the matcher of
    the starred expression.  An iteration that consumes nothing is
    rejected, so at most [length (rest st)] iterations can take place and
    that many units of fuel always suffice. *)
Section star.
Context (m : mstate → (mstate → option mstate) → option mstate).
Context (greedy : bool) (k : mstate → option mstate).

Fixpoint starLoop (fuel : nat) (st : mstate) : option mstate :=
  match fuel with
  | O => k st
  | S fuel' =>
      let iterate :=
        m st (λ st', if (length (rest st') <? length (rest st))%nat
                     then starLoop fuel' st' else None) in
      if greedy then orElse iterate (k st) else orElse (k st) iterate
  end.
End star.

Fixpoint rmatch (r : regex) (st : mstate) (k : mstate → option mstate)
  : option mstate :=
  match r with
  | Unit p =>
      match rest st with
      | c :: s' => if p c then k (MState s' (capture st)) else None
      | [] => None
      end
  | Empty => k st
  | Seq r1 r2 => rmatch r1 st (λ st', rmatch r2 st' k)
  | Alt r1 r2 => orElse (rmatch r1 st k) (rmatch r2 st k)
  | Star greedy r1 => starLoop (rmatch r1) greedy k (length (rest st)) st
  | Group r1 =>
      rmatch r1 st
        (λ st', k (MState (rest st')
                     (Some (take (length (rest st) - length (rest st'))%nat
                              (rest st)))))
  | Lookahead r1 =>
      match rmatch r1 st Some with
      | Some st' => k (MState (rest st) (capture st'))
      | None => None
      end
  | EndOfInput =>
      match rest st with [] => k st | _ :: _ => None end
  end.

(** [s.match(r)] for a regex without the g flag: the match that starts at
    the leftmost possible index.  The result is the final matcher state. *)
Fixpoint search (r : regex) (s : jstring) : option mstate :=
  orElse (rmatch r (MState s None) Some)
    match s with
    | [] => None
    | _ :: s' => search r s'
    end.

(** A literal piece of pattern text. *)
Fixpoint lit (t : jstring) : regex :=
  match t with
  | [] => Empty
  | c :: t' => Seq (Unit (N.eqb c)) (lit t')
  end.

Definition alts (rs : list regex) : regex := foldr Alt EndOfInput rs.

End Regex.

(** ** aiService.ts: the response parser *)

Module AIService.
Import Regex.

Definition ANALYSIS := str "ANALYSIS:".
Definition CODE := str "CODE:".
Definition VISUALIZATION_TYPE := str "VISUALIZATION_TYPE:".
Definition EXPLANATION := str "EXPLANATION:".

(** [/TAG:\s*(.*?)(?=A:|B:|C:|$)/s] *)
Definition sectionRegex (tag : jstring) (others : list jstring) : regex :=
  Seq (lit tag)
    (Seq (Star true (Unit is_space))
       (Seq (Group (Star false (Unit (λ _, true))))
          (Lookahead (alts (lit <$> others))))).

Definition analysisRegex :=
  sectionRegex ANALYSIS [CODE; VISUALIZATION_TYPE; EXPLANATION].
Definition codeRegex :=
  sectionRegex CODE [ANALYSIS; VISUALIZATION_TYPE; EXPLANATION].
Definition visualizationTypeRegex :=
  sectionRegex VISUALIZATION_TYPE [ANALYSIS; CODE; EXPLANATION].
Definition explanationRegex :=
  sectionRegex EXPLANATION [ANALYSIS; CODE; VISUALIZATION_TYPE].

(** [m?.[1]?.trim() || placeholder] *)
Definition fieldOf (m : option mstate) (placeholder : jstring) : jstring :=
  match m with
  | Some st =>
      match capture st with
      | Some g => or_else (trim g) placeholder
      | None => placeholder
      end
  | None => placeholder
  end.

Record ParsedResponse := {
  analysis : jstring;
  pythonCode : jstring;
  visualizationType : jstring;
  explanation : jstring
}.

Definition analysisPlaceholder := str "Analysis not provided".
Definition codePlaceholder :=
  str "print(" ++ [34%N] ++ str "No code generated" ++ [34%N] ++ str ")".
Definition visualizationTypePlaceholder := str "Unknown".
Definition explanationPlaceholder := str "Explanation not provided".

Definition parseAIResponse (response : jstring) : ParsedResponse :=
  let analysisMatch := search analysisRegex response in
  let codeMatch := search codeRegex response in
  let visualizationTypeMatch := search visualizationTypeRegex response in
  let explanationMatch := search explanationRegex response in
  {| analysis := fieldOf analysisMatch analysisPlaceholder;
     pythonCode := fieldOf codeMatch codePlaceholder;
     visualizationType :=
       fieldOf visualizationTypeMatch visualizationTypePlaceholder;
     explanation := fieldOf explanationMatch explanationPlaceholder |}.

(** The request and the response of [analyzeData]; the response is the
    parsed reply extended with an id and a time stamp. *)
Record AIAnalysisRequest := {
  query : jstring;
  columns : list jstring;
  sampleData : list (list FileProcessing.cell);
  dataTypes : gmap (list N) (list N);
  rowCount : nat;
  model : jstring
}.

Record AIAnalysisResponse := {
  parsed : ParsedResponse;
  id : jstring;
  timestamp : N
}.

Section providers.
(** The call to the provider named by the model: the text of its reply,
    or the value it throws. *)
Context (provider : AIAnalysisRequest → thrown + jstring).

Definition analyzeData (e : env) (request : AIAnalysisRequest)
  : thrown + AIAnalysisResponse :=
  let attempt : thrown + ParsedResponse :=
    if bool_decide (model request ∈ [str "openai"; str "gemini"; str "claude"])
    then match provider request with
         | inr response => inr (parseAIResponse response)
         | inl t => inl t
         end
    else inl (ErrorObject (str "Unsupported AI model: " ++ model request)) in
  match attempt with
  | inr response =>
      inr {| parsed := response; id := uuid e; timestamp := now e |}
  | inl t =>
      inl (ErrorObject (str "AI analysis failed: "
                        ++ messageOf t (str "Unknown error")))
  end.
End providers.

End AIService.

(** ** pythonSandboxService.ts *)

Module Sandbox.

Record ChartGenerationRequest := {
  pythonCode : jstring;
  datasetPath : jstring;
  outputFormat : jstring
}.

(** The four members of the [outputFormat] union type. *)
Definition isOutputFormat (format : jstring) : bool :=
  bool_decide (format ∈ [str "png"; str "jpg"; str "svg"; str "html"]).

(** [chartData]: the text of an html chart, or the metadata of an image. *)
Inductive chartData :=
| HtmlText (text : jstring)
| Metadata (size : nat) (format path : jstring).

Record PythonExecutionResult := {
  success : bool;
  output : jstring;
  error : option jstring;
  chartPath : option jstring;
  chartDataOf : option chartData
}.

(** One run of the interpreter as [python-shell] reports it: the lines of
    standard output (the [message] events), the messages of the [error]
    events, the error handed to the [end] callback if any, and the state of
    the directories when the process has ended. *)
Record pythonRun := {
  messages : list jstring;
  errorEvents : list jstring;
  endError : option jstring;
  after : world
}.

Record runResult := {
  runSuccess : bool;
  runOutput : jstring;
  runError : option jstring
}.

(** The accumulation [acc += message + newline] over a list of events. *)
Definition accumulate (events : list jstring) : jstring :=
  foldl (λ acc message, acc ++ message ++ [10%N]) [] events.

(** [runPythonFile], given what the process did. *)
Definition runPythonFile (run : pythonRun) : runResult :=
  let output := accumulate (messages run) in
  let error :=
    accumulate (errorEvents run ++
                match endError run with Some m => [m] | None => [] end) in
  {| runSuccess := negb (truthy error);
     runOutput := trim output;
     runError := if truthy (trim error) then Some (trim error) else None |}.

(** The process run reported clean completion: no [error] event, and no
    error handed to the [end] callback. *)
Definition cleanRun (run : pythonRun) : Prop :=
  errorEvents run = [] ∧ endError run = None.

(** [readChartData]: the text of an html chart, the metadata of an image;
    [None] is the [null] of its [catch] clause (the file cannot be read). *)
Definition readChartData (d : gmap (list N) file)
    (name chartPath format : jstring) : option chartData :=
  match d !! name with
  | Some chart =>
      if bool_decide (format = str "html") then Some (HtmlText (content chart))
      else Some (Metadata (length (content chart)) format chartPath)
  | None => None
  end.

Section service.
(** [process.cwd()] *)
Context (cwd : jstring).
(** The fixed prologue (it loads the dataset at the given path) and the
    fixed epilogue (it saves the figure at the given path, in the given
    format) of the script. *)
Context (setupCode : jstring → jstring).
Context (cleanupCode : jstring → jstring → jstring).
(** The interpreter: what running the script file at a path does in a
    world.  Starting the process may throw. *)
Context (python : jstring → world → thrown + pythonRun).

Definition tempDir : jstring := join cwd (str "temp").
Definition outputDir : jstring := join cwd (str "output").

Definition pythonName (executionId : jstring) : jstring :=
  executionId ++ str ".py".
Definition outputName (executionId format : jstring) : jstring :=
  executionId ++ str "." ++ format.

Definition pythonFile (executionId : jstring) : jstring :=
  join tempDir (pythonName executionId).
Definition outputFile (executionId format : jstring) : jstring :=
  join outputDir (outputName executionId format).

Definition enhancePythonCode
    (originalCode datasetPath outputPath format : jstring) : jstring :=
  setupCode datasetPath ++ originalCode ++ cleanupCode outputPath format.

(** The [catch] clause of [executePythonCode]. *)
Definition caught (t : thrown) : PythonExecutionResult :=
  {| success := false;
     output := [];
     error := Some (messageOf t (str "Unknown error occurred"));
     chartPath := None;
     chartDataOf := None |}.

(** The [try] block: the result, or the value thrown, each with the
    state of the directories at that point. *)
Definition attempt (e : env) (w : world)
    (request : ChartGenerationRequest) (executionId : jstring)
  : (thrown + PythonExecutionResult) * world :=
  let format := outputFormat request in
  let enhancedCode :=
    enhancePythonCode (pythonCode request) (datasetPath request)
      (outputFile executionId format) format in
  match writeFileSync e (tempFiles w) (pythonName executionId)
          enhancedCode with
  | inl t => (inl t, w)
  | inr temp' =>
      let w1 := withTemp w temp' in
      match python (pythonFile executionId) w1 with
      | inl t => (inl t, w1)
      | inr run =>
          let result := runPythonFile run in
          let w2 := after run in
          let chartExists :=
            existsSync (outputFiles w2) (outputName executionId format) in
          if runSuccess result && chartExists then
            (inr {| success := true;
                    output := runOutput result;
                    error := None;
                    chartPath := Some (outputFile executionId format);
                    chartDataOf :=
                      readChartData (outputFiles w2)
                        (outputName executionId format)
                        (outputFile executionId format) format |},
             w2)
          else
            (inr {| success := false;
                    output := runOutput result;
                    error :=
                      Some (or_else (default [] (runError result))
                              (str "Chart generation failed"));
                    chartPath := None;
                    chartDataOf := None |},
             w2)
      end
  end.

(** The run of the interpreter within an execution, if the script was
    written and the process was started. *)
Definition launched (e : env) (w : world)
    (request : ChartGenerationRequest) : option pythonRun :=
  let executionId := uuid e in
  let format := outputFormat request in
  match writeFileSync e (tempFiles w) (pythonName executionId)
          (enhancePythonCode (pythonCode request) (datasetPath request)
             (outputFile executionId format) format) with
  | inl _ => None
  | inr temp' =>
      match python (pythonFile executionId) (withTemp w temp') with
      | inl _ => None
      | inr run => Some run
      end
  end.

(** The script path and the output path of an execution: the first three
    lines of [executePythonCode]. *)
Definition executionPaths (e : env) (request : ChartGenerationRequest)
  : jstring * jstring :=
  let executionId := uuid e in
  (pythonFile executionId, outputFile executionId (outputFormat request)).

(** The [finally] clause: remove the script file if it is there. *)
Definition cleanupScript (w : world) (executionId : jstring) : world :=
  if existsSync (tempFiles w) (pythonName executionId)
  then withTemp w (delete (pythonName executionId) (tempFiles w))
  else w.

Definition executePythonCode (e : env) (w : world)
    (request : ChartGenerationRequest) : PythonExecutionResult * world :=
  let executionId := uuid e in
  let '(outcome, w') := attempt e w request executionId in
  let result :=
    match outcome with
    | inr result => result
    | inl t => caught t
    end in
  (result, cleanupScript w' executionId).

(** [cleanupDirectory] of [cleanupOldFiles]: the loop over the listed
    names (both directories exist once the service is constructed).
    [statSync] throws when a name is not there, which abandons the
    loop. *)
Fixpoint cleanupLoop (currentTime : N) (maxAge : Z) (files : list jstring)
    (d : gmap (list N) file) : gmap (list N) file * option thrown :=
  match files with
  | [] => (d, None)
  | name :: files' =>
      match d !! name with
      | None => (d, Some (ErrorObject (str "ENOENT")))
      | Some stats =>
          if bool_decide
               (Z.of_N currentTime - Z.of_N (mtime stats) > maxAge)%Z
          then cleanupLoop currentTime maxAge files' (delete name d)
          else cleanupLoop currentTime maxAge files' d
      end
  end.

Definition cleanupDirectory (currentTime : N) (maxAge : Z)
    (d : gmap (list N) file) : gmap (list N) file * option thrown :=
  cleanupLoop currentTime maxAge (readdirSync d) d.

(** [cleanupOldFiles(maxAge)]: the temp directory, then the output
    directory; an exception ends the sweep and is logged. *)
Definition cleanupOldFiles (e : env) (w : world) (maxAge : Z) : world :=
  let currentTime := now e in
  let '(temp', failure) :=
    cleanupDirectory currentTime maxAge (tempFiles w) in
  match failure with
  | Some _ => withTemp w temp'
  | None =>
      let '(output', _) :=
        cleanupDirectory currentTime maxAge (outputFiles w) in
      World temp' output' (uploadFiles w)
  end.

End service.

End Sandbox.

(** ** The results routes: serving and deleting charts *)

Module ResultsController.

Inductive body :=
| JsonError (error : jstring)
| JsonMessage (message : jstring)
| FileContent (contentType : jstring) (data : jstring).

Record response := { status : nat; payload : body }.




End ResultsController.

(** ** The analysis routes: the visualize pipeline *)

Module AnalysisController.

Record visualizeBody := {
  query : jstring;
  datasetId : jstring;
  aiModel : jstring;
  outputFormat : jstring
}.

Record analysisView := {
  id : jstring;
  queryOf : jstring;
  analysis : jstring;
  visualizationType : jstring;
  explanation : jstring;
  timestamp : N
}.

Record chartView := {
  path : jstring;
  format : jstring;
  data : option Sandbox.chartData
}.

Record executionView := { output : jstring; executionSuccess : bool }.

Record response := {
  status : nat;
  success : option bool;
  analysisOf : option analysisView;
  chart : option chartView;
  error : option jstring;
  details : option jstring;
  execution : option executionView
}.

Definition failure (status : nat) (error : jstring)
    (details : option jstring) : response :=
  {| status := status; success := None; analysisOf := None; chart := None;
     error := Some error; details := details; execution := None |}.

(** The dataset description handed to the model. *)
Definition analysisRequest (body : visualizeBody)
    (datasetInfo : FileProcessing.DatasetInfo) : AIService.AIAnalysisRequest :=
  {| AIService.query := query body;
     AIService.columns := FileProcessing.columns datasetInfo;
     AIService.sampleData := FileProcessing.sampleData datasetInfo;
     AIService.dataTypes := FileProcessing.dataTypes datasetInfo;
     AIService.rowCount := FileProcessing.rowCount datasetInfo;
     AIService.model := aiModel body |}.

(** The request handed to the sandbox. *)
Definition executionRequest (body : visualizeBody)
    (datasetInfo : FileProcessing.DatasetInfo)
    (aiResponse : AIService.AIAnalysisResponse)
  : Sandbox.ChartGenerationRequest :=
  {| Sandbox.pythonCode := AIService.pythonCode (AIService.parsed aiResponse);
     Sandbox.datasetPath := FileProcessing.filePath datasetInfo;
     Sandbox.outputFormat := outputFormat body |}.

(** The [analysis] object of both the success and the failure response. *)
Definition analysisViewOf (body : visualizeBody)
    (aiResponse : AIService.AIAnalysisResponse) : analysisView :=
  {| id := AIService.id aiResponse;
     queryOf := query body;
     analysis := AIService.analysis (AIService.parsed aiResponse);
     visualizationType :=
       AIService.visualizationType (AIService.parsed aiResponse);
     explanation := AIService.explanation (AIService.parsed aiResponse);
     timestamp := AIService.timestamp aiResponse |}.

Section routes.
Context (cwd : jstring).
Context (setupCode : jstring → jstring).
Context (cleanupCode : jstring → jstring → jstring).
Context (python : jstring → world → thrown + Sandbox.pythonRun).
Context (numericString : jstring → bool).
Context (parsesAsDate : FileProcessing.cell → bool).
Context (extname : jstring → jstring).
Context (sheetRows :
           jstring → thrown + option (list (list FileProcessing.cell))).
Context (headerNames : list FileProcessing.cell → list jstring).
Context (provider : AIService.AIAnalysisRequest → thrown + jstring).

(** [POST /visualize].  The three environments are those of the three
    service calls, in order. *)
Definition visualize (eDataset eAnalysis eExecution : env) (w : world)
    (body : visualizeBody) : response * world :=
  if negb (truthy (query body)) || negb (truthy (datasetId body))
     || negb (truthy (aiModel body)) || negb (truthy (outputFormat body))
  then
    (failure 400
       (str "Missing required fields: query, datasetId, aiModel, outputFormat")
       None, w)
  else
    let '(found, w1) :=
      FileProcessing.getDatasetInfo cwd numericString parsesAsDate extname
        sheetRows headerNames eDataset w (datasetId body) in
    match found with
    | None => (failure 404 (str "Dataset not found") None, w1)
    | Some datasetInfo =>
        match AIService.analyzeData provider eAnalysis
                (analysisRequest body datasetInfo) with
        | inl t =>
            (failure 500 (str "Internal server error during analysis")
               (Some (messageOf t (str "Unknown error"))), w1)
        | inr aiResponse =>
            let '(executionResult, w2) :=
              Sandbox.executePythonCode cwd setupCode cleanupCode python
                eExecution w1
                (executionRequest body datasetInfo aiResponse) in
            if Sandbox.success executionResult
               && truthy (default [] (Sandbox.chartPath executionResult))
            then
              ({| status := 200;
                  success := Some true;
                  analysisOf := Some (analysisViewOf body aiResponse);
                  chart :=
                    Some {| path :=
                              default []
                                (Sandbox.chartPath executionResult);
                            format := outputFormat body;
                            data := Sandbox.chartDataOf executionResult |};
                  error := None;
                  details := None;
                  execution :=
                    Some {| output := Sandbox.output executionResult;
                            executionSuccess := true |} |}, w2)
            else
              ({| status := 400;
                  success := Some false;
                  analysisOf := Some (analysisViewOf body aiResponse);
                  chart := None;
                  error :=
                    Some (or_else
                            (default [] (Sandbox.error executionResult))
                            (str "Chart generation failed"));
                  details := None;
                  execution :=
                    Some {| output := Sandbox.output executionResult;
                            executionSuccess := false |} |}, w2)
        end
    end.
End routes.

End AnalysisController.

(** ** The section grammar of the design document

    The reading of the parser contract that the design document gives, in its
    own words: a section is the text between the first occurrence of its tag
    and the nearest following occurrence of one of the other tags, or the end
    of the text. *)

Module ResponseParser.
Import AIService.

(** The text that follows the first occurrence of [tag], if there is one. *)
Fixpoint afterFirst (tag s : jstring) : option jstring :=
  if startsWith tag s then Some (drop (length tag) s)
  else match s with
       | [] => None
       | _ :: s' => afterFirst tag s'
       end.

(** One of [tags] starts at the head of [s], or [s] is the end of text. *)
Definition boundary (tags : list jstring) (s : jstring) : bool :=
  existsb (λ t, startsWith t s) tags || negb (truthy s).

(** [s] up to the nearest boundary. *)
Fixpoint upToNearest (tags : list jstring) (s : jstring) : jstring :=
  if boundary tags s then []
  else match s with
       | [] => []
       | c :: s' => c :: upToNearest tags s'
       end.

Definition sectionText (tag : jstring) (others : list jstring)
    (response : jstring) : option jstring :=
  upToNearest others <$> afterFirst tag response.

(** The four fields of a parsed reply, each with its tag, the three other
    tags (in the order of the source), its placeholder and its value. *)
Inductive field := Analysis | Code | VisualizationType | Explanation.

Definition tagOf (f : field) : jstring :=
  match f with
  | Analysis => ANALYSIS
  | Code => CODE
  | VisualizationType => VISUALIZATION_TYPE
  | Explanation => EXPLANATION
  end.

Definition othersOf (f : field) : list jstring :=
  match f with
  | Analysis => [CODE; VISUALIZATION_TYPE; EXPLANATION]
  | Code => [ANALYSIS; VISUALIZATION_TYPE; EXPLANATION]
  | VisualizationType => [ANALYSIS; CODE; EXPLANATION]
  | Explanation => [ANALYSIS; CODE; VISUALIZATION_TYPE]
  end.

Definition placeholderOf (f : field) : jstring :=
  match f with
  | Analysis => analysisPlaceholder
  | Code => codePlaceholder
  | VisualizationType => visualizationTypePlaceholder
  | Explanation => explanationPlaceholder
  end.

Definition valueOf (p : ParsedResponse) (f : field) : jstring :=
  match f with
  | Analysis => analysis p
  | Code => pythonCode p
  | VisualizationType => visualizationType p
  | Explanation => explanation p
  end.

(** The section of field [f] in a reply: the text between the first
    occurrence of its tag and the nearest following other tag. *)
Definition sectionOf (f : field) (response : jstring) : option jstring :=
  sectionText (tagOf f) (othersOf f) response.

(** No tag begins with white space. *)
Definition solidTags (tags : list jstring) : Prop :=
  Forall (λ t, match t with c :: _ => is_space c = false | [] => False end)
    tags.

(** The same reading, as a relation.  [pre] is what precedes the tag:
    the tag occurs at the end of [pre ++ tag] and nowhere before. *)
Definition firstOccurrence (tag pre rest : jstring) : Prop :=
  ∀ a b, pre = a ++ b → b ≠ [] → startsWith tag (b ++ tag ++ rest) = false.

(** [post] starts with one of [tags] or is the end of text, and no tag of
    [tags] starts inside [sec]. *)
Definition nearestBoundary (tags : list jstring) (sec post : jstring)
  : Prop :=
  boundary tags post = true ∧
  ∀ a b, sec = a ++ b → b ≠ [] → boundary tags (b ++ post) = false.

Definition isSection (f : field) (response sec : jstring) : Prop :=
  ∃ pre post,
    response = pre ++ tagOf f ++ sec ++ post ∧
    firstOccurrence (tagOf f) pre (sec ++ post) ∧
    nearestBoundary (othersOf f) sec post.

(** The reply contains all four tags. *)
Definition containsAllTags (response : jstring) : Prop :=
  ∀ f : field, includes response (tagOf f) = true.

End ResponseParser.

(** ** Sample values

    Concrete environments, requests and stand-ins for the external parts
    (interpreter, model provider, path and number parsing), used to run the
    model on examples. *)

Module Samples.

Definition cwd : jstring := str "/srv/ova".

Definition uuidA : jstring := str "3f2b8c1e-9a4d-4e7f-8b21-0c5d6e7f8a90".
Definition uuidB : jstring := str "7c9e6679-7425-40de-944b-e07fc1f90ae7".
Definition uuidC : jstring := str "0b0e7a5c-51d3-4c55-9a10-6f2d3b4c5d6e".

(** Three calls made at the same instant. *)
Definition envA : env := Env uuidA 1700000000000 None.
Definition envB : env := Env uuidB 1700000000000 None.
Definition envC : env := Env uuidC 1700000000000 None.

Definition pngRequest : Sandbox.ChartGenerationRequest :=
  {| Sandbox.pythonCode := str "df.plot()";
     Sandbox.datasetPath := str "/srv/ova/uploads/sales.csv";
     Sandbox.outputFormat := str "png" |}.

Definition htmlRequest : Sandbox.ChartGenerationRequest :=
  {| Sandbox.pythonCode := str "fig = px.bar(df)";
     Sandbox.datasetPath := str "/srv/ova/uploads/sales.csv";
     Sandbox.outputFormat := str "html" |}.

(** [path.extname] on a plain name that has an inner dot. *)
Definition extname (name : jstring) : jstring :=
  if existsb (N.eqb 46) name then 46%N :: lastPiece 46 name else [].

(** [!isNaN(Number(s))] on unsigned decimal numerals. *)
Definition numericString (s : jstring) : bool :=
  truthy s && forallb is_digit s.

Definition parsesAsDate (v : FileProcessing.cell) : bool := false.

Definition sheetRows (content : jstring)
  : thrown + option (list (list FileProcessing.cell)) := inr None.

Definition headerNames (row : list FileProcessing.cell) : list jstring :=
  omap (λ c, match c with FileProcessing.CString s => Some s | _ => None end)
    row.

(** A script that stops with an error before it saves a chart. *)
Definition failingPython (script : jstring) (w : world)
  : thrown + Sandbox.pythonRun :=
  inr {| Sandbox.messages := [str "Dataset loaded successfully"];
         Sandbox.errorEvents := [];
         Sandbox.endError := Some (str "NameError: name df2 is not defined");
         Sandbox.after := w |}.

Definition provider (request : AIService.AIAnalysisRequest)
  : thrown + jstring :=
  inr (str "ANALYSIS: Sales rise. CODE: df2.plot() VISUALIZATION_TYPE: line EXPLANATION: The trend.").

Definition noCode (path : jstring) : jstring := [].
Definition noCode2 (path format : jstring) : jstring := [].

(** A world with one stored upload, named as the middleware names it. *)
Definition storedCsv : jstring := uuidA ++ str "-1700000000000.csv".

Definition csvText : jstring :=
  str "region,sales" ++ [10%N] ++ str "north,10" ++ [10%N]
  ++ str "south,12" ++ [10%N].

Definition oneUpload : world :=
  World ∅ ∅ {[ storedCsv := File csvText 1700000000000 ]}.

(** A file as a client uploads it. *)
Definition clientCsv : FileProcessing.clientFile :=
  {| FileProcessing.clientName := str "sales.csv";
     FileProcessing.clientType := str "text/csv";
     FileProcessing.clientData := csvText |}.

(** A stored file whose header row repeats a name. *)
Definition repeatedHeaderCsv : jstring :=
  str "a,a" ++ [10%N] ++ str "1,x" ++ [10%N].

Definition repeatedHeaderFile : FileProcessing.MulterFile :=
  {| FileProcessing.mfilename := uuidB ++ str "-1700000000000.csv";
     FileProcessing.originalname := str "pairs.csv";
     FileProcessing.size := 8;
     FileProcessing.mimetype := str "text/csv" |}.

(** A script that ends cleanly and saves nothing. *)
Definition idlePython (script : jstring) (w : world)
  : thrown + Sandbox.pythonRun :=
  inr {| Sandbox.messages := [str "=== EXECUTION COMPLETED ==="];
         Sandbox.errorEvents := [];
         Sandbox.endError := None;
         Sandbox.after := w |}.

(** A script that ends cleanly and saves its chart. *)
Definition plottingPython (script : jstring) (w : world)
  : thrown + Sandbox.pythonRun :=
  inr {| Sandbox.messages := [str "Chart saved successfully"];
         Sandbox.errorEvents := [];
         Sandbox.endError := None;
         Sandbox.after :=
           withOutput w (<[ uuidA ++ str ".png" := File (str "PNG") 1700000000500 ]>
                           (outputFiles w)) |}.

(** Two charts, one old and one recent, and a leftover script. *)
Definition agedWorld : world :=
  World {[ str "old.py" := File (str "print(1)") 1000 ]}
        {[ str "old.png" := File (str "PNG") 1000;
           str "new.png" := File (str "PNG") 90000 ]}
        ∅.

Definition visualizeBody : AnalysisController.visualizeBody :=
  {| AnalysisController.query := str "show total sales by region";
     AnalysisController.datasetId := uuidA;
     AnalysisController.aiModel := str "openai";
     AnalysisController.outputFormat := str "png" |}.

End Samples.

(** ** fileProcessingService.ts: removing datasets and sweeping uploads *)

Module UploadStore.

(** [deleteDataset]: the first listed file whose name contains the id is
    unlinked. *)
Definition deleteDataset (w : world) (datasetId : jstring) : bool * world :=
  let files := readdirSync (uploadFiles w) in
  match List.find (λ file, includes file datasetId) files with
  | Some file => (true, withUploads w (delete file (uploadFiles w)))
  | None => (false, w)
  end.

(** [cleanupOldFiles] of the file processing service: the loop of the
    sandbox's sweep, over the uploads directory; an exception ends the loop
    and is logged. *)
Definition cleanupOldFiles (e : env) (w : world) (maxAge : Z) : world :=
  let currentTime := now e in
  let '(uploads', _) :=
    Sandbox.cleanupLoop currentTime maxAge (readdirSync (uploadFiles w))
      (uploadFiles w) in
  withUploads w uploads'.

End UploadStore.

(** ** CSV lines as text

    The writing of a list of fields as one line, each field between double
    quotes, the fields separated by commas. *)

Module CsvText.

Definition quoted (field : jstring) : jstring := [34%N] ++ field ++ [34%N].

(** A field as [parseCSVLine] returns it: no double quote in it, and no
    white space at its ends. *)
Definition plainField (field : jstring) : Prop :=
  (34%N ∉ field) ∧ trim field = field.

Fixpoint commaJoin (fields : list jstring) : jstring :=
  match fields with
  | [] => []
  | [field] => field
  | field :: fields' => field ++ [44%N] ++ commaJoin fields'
  end.

End CsvText.

(** ** Proof steps *)

(** Refutes a hypothesis [H : c ∈ l] for a literal list [l] without [c]. *)
Ltac refute_member H :=
  vm_compute in H;
  repeat (apply elem_of_cons in H as [H|H]; [discriminate|]);
  by apply elem_of_nil in H.

(* ================================================================== *)
(** * Properties *)
(* ================================================================== *)

Import Regex AIService ResponseParser.

(** ** Strings *)

Lemma startsWith_app (p s : jstring) : startsWith p (p ++ s) = true.
Proof.
  induction p as [|c p IH]; simpl; [done|].
  by rewrite N.eqb_refl.
Qed.

Lemma startsWith_spec (p s : jstring) :
  startsWith p s = true ↔ ∃ t, s = p ++ t.
Proof.
  split.
  - revert s. induction p as [|c p IH]; intros s H; simpl in *.
    + by exists s.
    + destruct s as [|b s]; [done|].
      apply andb_true_iff in H as [Hc Hp]. apply N.eqb_eq in Hc as ->.
      destruct (IH _ Hp) as [t ->]. by exists t.
  - intros [t ->]. apply startsWith_app.
Qed.

Lemma includes_here (s p : jstring) :
  startsWith p s = true → includes s p = true.
Proof. intros H. destruct s; simpl; by rewrite H. Qed.

Lemma includes_spec (s p : jstring) :
  includes s p = true ↔ ∃ a b, s = a ++ p ++ b.
Proof.
  split.
  - induction s as [|c s IH]; simpl; intros H.
    + rewrite orb_false_r in H. apply startsWith_spec in H as [t ->].
      by exists [], t.
    + apply orb_true_iff in H as [H|H].
      * apply startsWith_spec in H as [t ->]. by exists [], t.
      * destruct (IH H) as (a & b & ->). by exists (c :: a), b.
  - intros (a & b & ->). induction a as [|c a IH]; simpl.
    + apply includes_here, startsWith_app.
    + by rewrite IH, orb_true_r.
Qed.

Lemma trimStart_idemp (s : jstring) : trimStart (trimStart s) = trimStart s.
Proof.
  induction s as [|c s IH]; simpl; [done|].
  destruct (is_space c) eqn:E; [done|]. simpl. by rewrite E.
Qed.

Lemma trim_trimStart (s : jstring) : trim (trimStart s) = trim s.
Proof. unfold trim. by rewrite trimStart_idemp. Qed.

(** ** The matcher on the section expressions *)

Lemma rmatch_lit (t : jstring) (st : mstate) k :
  rmatch (lit t) st k =
    if startsWith t (rest st)
    then k (MState (drop (length t) (rest st)) (capture st))
    else None.
Proof.
  revert st. induction t as [|c t IH]; intros [s cap]; simpl.
  - done.
  - destruct s as [|b s]; simpl; [done|].
    destruct (c =? b)%N; simpl; [|done]. by rewrite IH.
Qed.

(** The matcher depends on its continuation only through the results the
    continuation gives. *)
Lemma starLoop_ext (m : mstate → (mstate → option mstate) → option mstate)
    (g : bool) (k1 k2 : mstate → option mstate) :
  (∀ st j1 j2, (∀ st', j1 st' = j2 st') → m st j1 = m st j2) →
  (∀ st, k1 st = k2 st) →
  ∀ fuel st, starLoop m g k1 fuel st = starLoop m g k2 fuel st.
Proof.
  intros Hm Hk. induction fuel as [|fuel IH]; intros st; simpl; [done|].
  rewrite (Hk st).
  rewrite (Hm st _ (λ st', if length (rest st') <? length (rest st)
                           then starLoop m g k2 fuel st' else None)); [done|].
  intros st'. by rewrite IH.
Qed.

Lemma rmatch_ext (r : regex) :
  ∀ st k1 k2, (∀ st', k1 st' = k2 st') → rmatch r st k1 = rmatch r st k2.
Proof.
  induction r as [p| |r1 IH1 r2 IH2|r1 IH1 r2 IH2|g r IH|r IH|r IH| ];
    intros st k1 k2 Hk; simpl.
  - destruct (rest st) as [|c s]; [done|]. by rewrite Hk.
  - done.
  - apply IH1. intros st'. by apply IH2.
  - by rewrite (IH1 st k1 k2 Hk), (IH2 st k1 k2 Hk).
  - by apply starLoop_ext.
  - apply IH. intros st'. by rewrite Hk.
  - destruct (rmatch r st Some); [by rewrite Hk|done].
  - destruct (rest st); [by rewrite Hk|done].
Qed.

(** A continuation that always fails makes the matcher fail. *)
Lemma rmatch_fail (r : regex) : ∀ st, rmatch r st (λ _, None) = None.
Proof.
  induction r as [p| |r1 IH1 r2 IH2|r1 IH1 r2 IH2|g r IH|r IH|r IH| ];
    intros st; simpl.
  - destruct (rest st) as [|c s]; [done|]. by destruct (p c).
  - done.
  - rewrite (rmatch_ext r1 st _ (λ _, None)); [apply IH1|]. apply IH2.
  - by rewrite IH1, IH2.
  - generalize (length (rest st)). intros fuel. revert st.
    induction fuel as [|fuel IHfuel]; intros st; simpl; [done|].
    rewrite (rmatch_ext r st _ (λ _, None)).
    + rewrite IH. by destruct g.
    + intros st'. rewrite IHfuel. by destruct (_ <? _).
  - apply IH.
  - by destruct (rmatch r st Some).
  - by destruct (rest st).
Qed.

(** The fuel given to a starred expression is enough: with any larger
    amount the iteration gives the same result. *)
Lemma starLoop_fuel (r : regex) (g : bool) (k : mstate → option mstate) :
  ∀ (n : nat) (st : mstate) (fuel : nat),
    length (rest st) ≤ n → n ≤ fuel →
    starLoop (rmatch r) g k fuel st = starLoop (rmatch r) g k n st.
Proof.
  induction n as [|n IH]; intros st fuel Hst Hfuel.
  - destruct fuel as [|fuel]; simpl; [done|].
    rewrite (rmatch_ext r st _ (λ _, None)).
    + rewrite rmatch_fail. by destruct g, (k st).
    + intros st'.
      assert ((length (rest st') <? length (rest st)) = false) as ->
        by (apply Nat.ltb_ge; lia).
      done.
  - destruct fuel as [|fuel]; [lia|]. simpl.
    rewrite (rmatch_ext r st _
               (λ st', if length (rest st') <? length (rest st)
                       then starLoop (rmatch r) g k n st' else None)); [done|].
    intros st'. destruct (length (rest st') <? length (rest st)) eqn:Hlt;
      [|done].
    apply Nat.ltb_lt in Hlt. apply IH; lia.
Qed.

Lemma starLoop_spaces (k : mstate → option mstate) (cap : option jstring) :
  ∀ (s : jstring) (fuel : nat),
    length s ≤ fuel →
    is_Some (k (MState (trimStart s) cap)) →
    starLoop (rmatch (Unit is_space)) true k fuel (MState s cap)
    = k (MState (trimStart s) cap).
Proof.
  induction s as [|c s IH]; intros fuel Hfuel Hk.
  - destruct fuel; simpl; done.
  - destruct fuel as [|fuel]; simpl in Hfuel; [lia|].
    simpl in *. destruct (is_space c) eqn:Hc; [|done].
    assert ((length s <? S (length s)) = true) as -> by (apply Nat.ltb_lt; lia).
    rewrite IH by (done || lia). by destruct Hk as [x ->].
Qed.

Lemma rmatch_alts_capture (others : list jstring) (st st' : mstate) :
  rmatch (alts (lit <$> others)) st Some = Some st' → capture st' = capture st.
Proof.
  induction others as [|t others IH]; simpl.
  - destruct (rest st); [|done]. by intros [= <-].
  - rewrite rmatch_lit. destruct (startsWith t (rest st)); simpl; [|done].
    by intros [= <-].
Qed.

Lemma rmatch_alts_boundary (others : list jstring) (st : mstate) :
  is_Some (rmatch (alts (lit <$> others)) st Some)
  ↔ boundary others (rest st) = true.
Proof.
  unfold boundary. induction others as [|t others IH]; simpl.
  - destruct (rest st); simpl; split; (done || by intros []).
  - rewrite rmatch_lit. destruct (startsWith t (rest st)); simpl; [|done].
    split; [done|]. by eexists.
Qed.

Lemma rmatch_lookahead (others : list jstring) (st : mstate) k :
  rmatch (Lookahead (alts (lit <$> others))) st k
  = if boundary others (rest st) then k st else None.
Proof.
  simpl. destruct (rmatch (alts (lit <$> others)) st Some) as [st'|] eqn:E.
  - rewrite (rmatch_alts_capture _ _ _ E).
    assert (boundary others (rest st) = true) as ->
      by (apply rmatch_alts_boundary; rewrite E; by eexists).
    by destruct st.
  - destruct (boundary others (rest st)) eqn:B; [|done].
    apply rmatch_alts_boundary in B. rewrite E in B. by destruct B.
Qed.

Lemma boundary_nil (tags : list jstring) : boundary tags [] = true.
Proof. unfold boundary. simpl. apply orb_true_r. Qed.

Lemma starLoop_lazy (others : list jstring) (cap : option jstring)
    (k : mstate → option mstate) :
  ∀ (s pre : jstring) (fuel : nat),
    length s ≤ fuel →
    (∀ a b, pre ++ s = a ++ b →
       k (MState b cap) =
         if boundary others b then Some (MState b (Some a)) else None) →
    starLoop (rmatch (Unit (λ _, true))) false k fuel (MState s cap)
    = Some (MState (drop (length (upToNearest others s)) s)
              (Some (pre ++ upToNearest others s))).
Proof.
  induction s as [|c s IH]; intros pre fuel Hfuel Hk.
  - pose proof (Hk pre [] eq_refl) as Hk0. rewrite boundary_nil in Hk0.
    simpl. rewrite boundary_nil, app_nil_r.
    destruct fuel; simpl; by rewrite Hk0.
  - pose proof (Hk pre (c :: s) eq_refl) as Hk0.
    cbn [upToNearest]. destruct (boundary others (c :: s)) eqn:B.
    + rewrite app_nil_r. destruct fuel; simpl; by rewrite Hk0.
    + destruct fuel as [|fuel]; simpl in Hfuel; [lia|].
      simpl. rewrite Hk0. simpl.
      assert ((length s <? S (length s)) = true) as -> by (apply Nat.ltb_lt; lia).
      rewrite (IH (pre ++ [c])); [|lia|].
      * by rewrite <- app_assoc.
      * intros a b Hab. apply Hk. by rewrite <- Hab, <- app_assoc.
Qed.

Lemma take_consumed (a b : jstring) :
  take (length (a ++ b) - length b) (a ++ b) = a.
Proof.
  rewrite length_app.
  replace (length a + length b - length b) with (length a) by lia.
  by rewrite take_app_length.
Qed.

Lemma rmatch_Seq (r1 r2 : regex) (st : mstate) k :
  rmatch (Seq r1 r2) st k = rmatch r1 st (λ st', rmatch r2 st' k).
Proof. reflexivity. Qed.

Lemma rmatch_Star (g : bool) (r : regex) (st : mstate) k :
  rmatch (Star g r) st k = starLoop (rmatch r) g k (length (rest st)) st.
Proof. reflexivity. Qed.

(** The lazy capture followed by the lookahead: [(.*?)(?=A|B|C|$)]. *)
Lemma rmatch_capture_upto (others : list jstring) (s : jstring)
    (cap : option jstring) :
  rmatch (Seq (Group (Star false (Unit (λ _, true))))
            (Lookahead (alts (lit <$> others)))) (MState s cap) Some
  = Some (MState (drop (length (upToNearest others s)) s)
            (Some (upToNearest others s))).
Proof.
  rewrite rmatch_Seq. cbn [rmatch rest capture].
  rewrite (starLoop_lazy others cap _ s []); [done|done|].
  intros a b Hab. simpl in Hab. cbn [rest capture].
  rewrite Hab, take_consumed.
  change (rmatch (Lookahead (alts (lit <$> others))) (MState b (Some a)) Some
          = if boundary others b then Some (MState b (Some a)) else None).
  by rewrite rmatch_lookahead.
Qed.

(** One attempt of a section expression at the head of [s]. *)
Lemma rmatch_sectionRegex (tag : jstring) (others : list jstring) (s : jstring) :
  rmatch (sectionRegex tag others) (MState s None) Some =
    if startsWith tag s then
      let body := trimStart (drop (length tag) s) in
      Some (MState (drop (length (upToNearest others body)) body)
              (Some (upToNearest others body)))
    else None.
Proof.
  unfold sectionRegex. rewrite rmatch_Seq, rmatch_lit. cbn [rest capture].
  destruct (startsWith tag s); [|done].
  rewrite rmatch_Seq, rmatch_Star. cbn [rest].
  rewrite starLoop_spaces; [|done|]; rewrite rmatch_capture_upto; [done|].
  by eexists.
Qed.

(** The parser's regular expressions compute the section grammar: the match
    starts at the first occurrence of the tag, skips white space, and captures
    the text up to the nearest boundary. *)
Lemma search_sectionRegex (tag : jstring) (others : list jstring) (s : jstring) :
  search (sectionRegex tag others) s =
    match afterFirst tag s with
    | Some after =>
        let body := trimStart after in
        Some (MState (drop (length (upToNearest others body)) body)
                (Some (upToNearest others body)))
    | None => None
    end.
Proof.
  induction s as [|c s IH]; cbn [search afterFirst];
    rewrite rmatch_sectionRegex;
    destruct (startsWith tag _); simpl; done.
Qed.

(** ** The parsed fields *)

Lemma afterFirst_includes (tag s : jstring) :
  is_Some (afterFirst tag s) ↔ includes s tag = true.
Proof.
  induction s as [|c s IH]; simpl.
  - destruct (startsWith tag []); simpl; split; (done || by intros []).
  - destruct (startsWith tag (c :: s)); simpl; [|done].
    split; [done|]. by eexists.
Qed.

Lemma afterFirst_None (tag s : jstring) :
  includes s tag = false → afterFirst tag s = None.
Proof.
  intros H. destruct (afterFirst tag s) eqn:E; [|done].
  assert (includes s tag = true) by (apply afterFirst_includes; by eexists).
  congruence.
Qed.

Lemma solidTags_boundary (tags : list jstring) (c : N) (s : jstring) :
  solidTags tags → is_space c = true → boundary tags (c :: s) = false.
Proof.
  intros Hs Hc. unfold boundary. simpl. rewrite orb_false_r.
  induction Hs as [|t tags Ht _ IH]; simpl; [done|].
  rewrite IH, orb_false_r. destruct t as [|a t]; [done|]. simpl.
  destruct (a =? c)%N eqn:E; [|done]. apply N.eqb_eq in E. congruence.
Qed.

Lemma upToNearest_trimStart (tags : list jstring) (s : jstring) :
  solidTags tags →
  upToNearest tags (trimStart s) = trimStart (upToNearest tags s).
Proof.
  intros Hs. induction s as [|c s IH].
  { simpl. by destruct (boundary tags []). }
  cbn [trimStart]. destruct (is_space c) eqn:Hc.
  - cbn [upToNearest]. rewrite (solidTags_boundary _ _ _ Hs Hc).
    cbn [trimStart]. by rewrite Hc.
  - cbn [upToNearest]. destruct (boundary tags (c :: s)); [done|].
    cbn [trimStart]. by rewrite Hc.
Qed.

Lemma solidTags_othersOf (f : field) : solidTags (othersOf f).
Proof. destruct f; repeat constructor. Qed.

Lemma fieldOf_search (tag : jstring) (others : list jstring)
    (placeholder response : jstring) :
  solidTags others →
  fieldOf (search (sectionRegex tag others) response) placeholder =
    match sectionText tag others response with
    | Some sec => or_else (trim sec) placeholder
    | None => placeholder
    end.
Proof.
  intros Hs. rewrite search_sectionRegex. unfold sectionText.
  destruct (afterFirst tag response) as [after|]; simpl; [|done].
  by rewrite upToNearest_trimStart, trim_trimStart.
Qed.

(** Every field of the parsed reply is its section, trimmed, or else its
    placeholder. *)
Lemma parseAIResponse_field (response : jstring) (f : field) :
  valueOf (parseAIResponse response) f =
    match sectionOf f response with
    | Some sec => or_else (trim sec) (placeholderOf f)
    | None => placeholderOf f
    end.
Proof.
  destruct f; simpl; unfold sectionOf;
    rewrite <- fieldOf_search by apply (solidTags_othersOf Analysis) ||
                                  apply (solidTags_othersOf Code) ||
                                  apply (solidTags_othersOf VisualizationType) ||
                                  apply (solidTags_othersOf Explanation);
    reflexivity.
Qed.

(** ** The section grammar as a function and as a relation *)

Lemma afterFirst_sound (tag s after : jstring) :
  afterFirst tag s = Some after →
  ∃ pre, s = pre ++ tag ++ after ∧ firstOccurrence tag pre after.
Proof.
  revert after. induction s as [|c s IH]; intros after; cbn [afterFirst].
  - destruct (startsWith tag []) eqn:E; [|done]. intros [= <-].
    apply startsWith_spec in E as [t E].
    exists []. symmetry in E. apply app_eq_nil in E as [-> ->].
    split; [done|]. intros a b Hab. symmetry in Hab.
    apply app_eq_nil in Hab as [_ ->]. done.
  - destruct (startsWith tag (c :: s)) eqn:E.
    + intros [= <-]. apply startsWith_spec in E as [t E]. exists [].
      rewrite E, drop_app_length. split; [done|].
      intros a b Hab. symmetry in Hab. apply app_eq_nil in Hab as [_ ->]. done.
    + intros H. destruct (IH _ H) as (pre & -> & Hfirst).
      exists (c :: pre). split; [done|].
      intros [|a0 a] b Hab Hb; simpl in Hab.
      * by subst b.
      * injection Hab as -> ->. by apply (Hfirst a b).
Qed.

Lemma afterFirst_complete (tag pre after : jstring) :
  firstOccurrence tag pre after →
  afterFirst tag (pre ++ tag ++ after) = Some after.
Proof.
  induction pre as [|c pre IH]; intros Hfirst.
  - simpl. destruct (tag ++ after) eqn:E; simpl; rewrite <- E;
      by rewrite startsWith_app, drop_app_length.
  - cbn [afterFirst app]. change (c :: pre ++ tag ++ after) with
      ((c :: pre) ++ tag ++ after).
    rewrite (Hfirst [] (c :: pre)) by done.
    simpl. apply IH. intros a b -> Hb. by apply (Hfirst (c :: a) b).
Qed.

Lemma upToNearest_sound (tags : list jstring) (s : jstring) :
  ∃ post, s = upToNearest tags s ++ post ∧
          nearestBoundary tags (upToNearest tags s) post.
Proof.
  induction s as [|c s (post & Hs & Hb & Hin)].
  - exists []. simpl. rewrite boundary_nil.
    split; [done|]. split; [apply boundary_nil|].
    intros a b Hab. symmetry in Hab. apply app_eq_nil in Hab as [_ ->]. done.
  - cbn [upToNearest]. destruct (boundary tags (c :: s)) eqn:B.
    + exists (c :: s). split; [done|]. split; [done|].
      intros a b Hab. symmetry in Hab. apply app_eq_nil in Hab as [_ ->]. done.
    + exists post. split; [simpl; by rewrite <- Hs|]. split; [done|].
      intros [|a0 a] b Hab Hne; simpl in Hab.
      * subst b. simpl. by rewrite <- Hs.
      * injection Hab as -> Hab. by apply (Hin a b).
Qed.

Lemma upToNearest_complete (tags : list jstring) (sec post : jstring) :
  nearestBoundary tags sec post → upToNearest tags (sec ++ post) = sec.
Proof.
  intros [Hb Hin]. induction sec as [|c sec IH].
  - simpl. destruct post; simpl; by rewrite Hb.
  - cbn [app upToNearest].
    change (c :: sec ++ post) with ((c :: sec) ++ post).
    rewrite (Hin [] (c :: sec)) by done. simpl. f_equal.
    apply IH. intros a b -> Hne. by apply (Hin (c :: a) b).
Qed.

(** The two readings agree. *)
Lemma sectionOf_isSection (f : field) (response sec : jstring) :
  sectionOf f response = Some sec ↔ isSection f response sec.
Proof.
  unfold sectionOf, sectionText, isSection. split.
  - destruct (afterFirst (tagOf f) response) as [after|] eqn:E; [|done].
    simpl. intros [= <-].
    destruct (afterFirst_sound _ _ _ E) as (pre & -> & Hfirst).
    destruct (upToNearest_sound (othersOf f) after) as (post & Hafter & Hb).
    exists pre, post. rewrite <- Hafter. done.
  - intros (pre & post & -> & Hfirst & Hb).
    rewrite (afterFirst_complete _ _ _ Hfirst). simpl.
    by rewrite (upToNearest_complete _ _ _ Hb).
Qed.

Lemma sectionOf_is_Some (f : field) (response : jstring) :
  includes response (tagOf f) = true → is_Some (sectionOf f response).
Proof.
  intros H. apply afterFirst_includes in H as [after H].
  unfold sectionOf, sectionText. rewrite H. by eexists.
Qed.

Lemma or_else_truthy (a b : jstring) : a ≠ [] → or_else a b = a.
Proof. by destruct a. Qed.

Lemma or_else_nil (b : jstring) : or_else [] b = b.
Proof. done. Qed.

(** ** The contract of the response parser *)

(** C4, with the empty section set apart: for every reply that contains all
    four tags, in any order, each field has a section -- the text between the
    first occurrence of its tag and the nearest following occurrence of one
    of the other three tags, or the end of the text -- and [parseAIResponse]
    returns exactly the trimmed section whenever that is not empty; an empty
    trimmed section yields the placeholder of the field. *)
Theorem parseAIResponse_sections (response : jstring) (f : field) :
  containsAllTags response →
  ∃ sec, isSection f response sec ∧
         (trim sec ≠ [] → valueOf (parseAIResponse response) f = trim sec) ∧
         (trim sec = [] →
          valueOf (parseAIResponse response) f = placeholderOf f).
Proof.
  intros Hall. destruct (sectionOf_is_Some f response (Hall f)) as [sec Hsec].
  exists sec. split; [by apply sectionOf_isSection|].
  rewrite parseAIResponse_field, Hsec.
  split; intros H; [by apply or_else_truthy | by rewrite H].
Qed.

Lemma parseAIResponse_sections_witness :
  ∃ sec,
    isSection Code
      (str "EXPLANATION: e CODE: plot(df) ANALYSIS: a VISUALIZATION_TYPE: bar")
      sec ∧
    (trim sec ≠ [] →
     valueOf (parseAIResponse
                (str "EXPLANATION: e CODE: plot(df) ANALYSIS: a VISUALIZATION_TYPE: bar"))
       Code = trim sec) ∧
    (trim sec = [] →
     valueOf (parseAIResponse
                (str "EXPLANATION: e CODE: plot(df) ANALYSIS: a VISUALIZATION_TYPE: bar"))
       Code = placeholderOf Code).
Proof.
  apply (parseAIResponse_sections
           (str "EXPLANATION: e CODE: plot(df) ANALYSIS: a VISUALIZATION_TYPE: bar")
           Code).
  intros []; vm_compute; reflexivity.
Defined.

(** C4 read without that exception does not hold: when a section is empty
    the field is not the (empty) trimmed section but the placeholder. *)
Lemma parseAIResponse_sections_counterexample :
  ∃ (response : jstring) (f : field),
    containsAllTags response ∧
    ∀ sec, isSection f response sec →
           valueOf (parseAIResponse response) f ≠ trim sec.
Proof.
  exists (str "ANALYSIS:CODE:xVISUALIZATION_TYPE:yEXPLANATION:z"), Analysis.
  split; [intros []; vm_compute; reflexivity|].
  intros sec Hsec. apply sectionOf_isSection in Hsec. vm_compute in Hsec.
  injection Hsec as <-. vm_compute. discriminate.
Qed.

(** C5: [parseAIResponse] is a total function (no reply makes it fail), and a
    field whose tag is missing from the reply, or whose section is empty once
    trimmed, is the documented placeholder of the field. *)
Theorem parseAIResponse_placeholders (response : jstring) (f : field) :
  includes response (tagOf f) = false ∨
    (∃ sec, isSection f response sec ∧ trim sec = []) →
  valueOf (parseAIResponse response) f = placeholderOf f ∧
  placeholderOf f =
    match f with
    | Analysis => str "Analysis not provided"
    | Code => str "print(" ++ [34%N] ++ str "No code generated"
                ++ [34%N] ++ str ")"
    | VisualizationType => str "Unknown"
    | Explanation => str "Explanation not provided"
    end.
Proof.
  intros H. split; [|by destruct f].
  rewrite parseAIResponse_field. destruct H as [H|(sec & Hsec & Hempty)].
  - unfold sectionOf, sectionText. by rewrite (afterFirst_None _ _ H).
  - apply sectionOf_isSection in Hsec. by rewrite Hsec, Hempty.
Qed.

Lemma parseAIResponse_placeholders_witness :
  valueOf (parseAIResponse (str "The data looks fine, no chart needed."))
    Code = placeholderOf Code ∧
  valueOf (parseAIResponse (str "ANALYSIS:   CODE: plot()")) Analysis
    = placeholderOf Analysis.
Proof.
  split.
  - apply (parseAIResponse_placeholders
             (str "The data looks fine, no chart needed.") Code).
    left. vm_compute. reflexivity.
  - apply (parseAIResponse_placeholders
             (str "ANALYSIS:   CODE: plot()") Analysis).
    right. exists (str "   "). split; [|vm_compute; reflexivity].
    apply sectionOf_isSection. vm_compute. reflexivity.
Defined.

(** ** Identifiers and paths *)

Lemma uuidFrom_length (i : nat) (s : jstring) :
  uuidFrom i s = true → length s + i = 36.
Proof.
  revert i. induction s as [|c s IH]; intros i; simpl.
  - by intros ?%bool_decide_eq_true.
  - intros [_ H]%andb_true_iff. apply IH in H. lia.
Qed.

Lemma is_uuid_length (s : jstring) : is_uuid s = true → length s = 36.
Proof. intros H%uuidFrom_length. lia. Qed.

Lemma stem_extension (name ext : jstring) :
  existsb (N.eqb 46) ext = false → stem (name ++ 46%N :: ext) = name.
Proof.
  intros Hext. induction name as [|c name IH]; simpl.
  - by rewrite Hext.
  - rewrite existsb_app. simpl. rewrite orb_true_r. by rewrite IH.
Qed.

Lemma isOutputFormat_no_dot (format : jstring) :
  Sandbox.isOutputFormat format = true → existsb (N.eqb 46) format = false.
Proof.
  intros H%bool_decide_eq_true. set_unfold in H.
  destruct H as [->|[->|[->|[->|[]]]]]; reflexivity.
Qed.

(** ** The sandbox runner *)

Section sandbox_facts.
Import Sandbox.
Context (cwd : jstring).
Context (setupCode : jstring → jstring).
Context (cleanupCode : jstring → jstring → jstring).
Context (python : jstring → world → thrown + pythonRun).

Local Abbreviation executePythonCode :=
  (executePythonCode cwd setupCode cleanupCode python).
Local Abbreviation attempt := (attempt cwd setupCode cleanupCode python).
Local Abbreviation launched := (launched cwd setupCode cleanupCode python).

Lemma accumulate_from (acc : jstring) (events : list jstring) :
  acc ≠ [] →
  foldl (λ acc message, acc ++ message ++ [10%N]) acc events ≠ [].
Proof.
  revert acc. induction events as [|m events IH]; intros acc Hacc; [done|].
  simpl. apply IH. by destruct acc.
Qed.

Lemma accumulate_nil (events : list jstring) :
  accumulate events = [] ↔ events = [].
Proof.
  split; [|by intros ->].
  destruct events as [|m events]; [done|]. unfold accumulate. simpl.
  intros H. exfalso. revert H. apply accumulate_from. by destruct m.
Qed.

(** [python-shell] reports success exactly for a clean run. *)
Lemma runSuccess_clean (run : pythonRun) :
  runSuccess (runPythonFile run) = true ↔ cleanRun run.
Proof.
  unfold runPythonFile, cleanRun. simpl.
  set (events := errorEvents run ++ _).
  assert (accumulate events = [] ↔ events = []) as H
    by apply accumulate_nil.
  destruct (accumulate events) eqn:E; simpl.
  - split; [intros _|done]. destruct H as [H _].
    specialize (H eq_refl). unfold events in H.
    apply app_eq_nil in H as [-> H]. by destruct (endError run).
  - split; [done|]. intros [H1 H2]. unfold events in H.
    rewrite H1, H2 in H. destruct H as [_ H]. by specialize (H eq_refl).
Qed.

Lemma runError_clean (run : pythonRun) :
  cleanRun run → runError (runPythonFile run) = None.
Proof. intros [H1 H2]. unfold runPythonFile. by rewrite H1, H2. Qed.

Lemma cleanupScript_spec (w : world) (executionId : jstring) :
  cleanupScript w executionId
  = withTemp w (delete (pythonName executionId) (tempFiles w)).
Proof.
  unfold cleanupScript, existsSync. case_bool_decide as H; [done|].
  rewrite delete_id; [by destruct w|].
  by apply eq_None_not_Some.
Qed.

Lemma executePythonCode_world (e : env) (w : world)
    (request : ChartGenerationRequest) :
  (executePythonCode e w request).2
  = cleanupScript (attempt e w request (uuid e)).2 (uuid e).
Proof.
  unfold Sandbox.executePythonCode.
  by destruct (attempt e w request (uuid e)).
Qed.

Lemma executePythonCode_result (e : env) (w : world)
    (request : ChartGenerationRequest) :
  (executePythonCode e w request).1
  = match (attempt e w request (uuid e)).1 with
    | inr result => result
    | inl t => caught t
    end.
Proof.
  unfold Sandbox.executePythonCode.
  by destruct (attempt e w request (uuid e)).
Qed.

(** When the interpreter is started, the script of the execution is in the
    temp directory, with the enveloped code as its text. *)
Lemma launched_script_present (e : env) (w : world)
    (request : ChartGenerationRequest) (run : pythonRun) :
  launched e w request = Some run →
  ∃ started,
    python (pythonFile cwd (uuid e)) started = inr run ∧
    tempFiles started !! pythonName (uuid e)
    = Some (File (enhancePythonCode setupCode cleanupCode
                    (pythonCode request) (datasetPath request)
                    (outputFile cwd (uuid e) (outputFormat request))
                    (outputFormat request))
              (now e)).
Proof.
  unfold Sandbox.launched, writeFileSync.
  destruct (writeError e); [done|].
  destruct (python _ _) as [t|run'] eqn:Hrun; [done|]. intros [= <-].
  eexists. split; [exact Hrun|]. cbn [tempFiles withTemp].
  apply lookup_insert_eq.
Qed.

(** C1: the result of [executePythonCode] has [success = true] exactly when
    the interpreter ran, its run reported clean completion, and the
    expected output file exists on disk afterwards.  In particular a clean
    run that never creates the output file gives [success = false] with a
    non-empty error message. *)
Theorem executePythonCode_success (e : env) (w : world)
    (request : ChartGenerationRequest) :
  let result := (executePythonCode e w request).1 in
  let w' := (executePythonCode e w request).2 in
  let chart := outputName (uuid e) (outputFormat request) in
  (success result = true ↔
     ∃ run, launched e w request = Some run ∧ cleanRun run ∧
            is_Some (outputFiles w' !! chart)) ∧
  (∀ run, launched e w request = Some run ∧ cleanRun run ∧
          outputFiles (after run) !! chart = None →
          success result = false ∧
          error result = Some (str "Chart generation failed") ∧
          str "Chart generation failed" ≠ []).
Proof.
  cbv zeta. rewrite executePythonCode_result, executePythonCode_world.
  rewrite cleanupScript_spec. unfold Sandbox.attempt, Sandbox.launched.
  destruct (writeFileSync e _ _ _) as [t|temp']; cbn [fst snd].
  { split; [split; [done|by intros (? & ? & _)]|by intros ? [? _]]. }
  destruct (python _ _) as [t|run]; cbn [fst snd].
  { split; [split; [done|by intros (? & ? & _)]|by intros ? [? _]]. }
  unfold existsSync.
  destruct (runSuccess (runPythonFile run)) eqn:Hrun; cbn [andb].
  - apply runSuccess_clean in Hrun. case_bool_decide as Hchart; cbn [fst snd].
    + split.
      * split; [intros _; by exists run|done].
      * intros ? ([= <-] & _ & Hnone). rewrite Hnone in Hchart.
        by destruct Hchart.
    + split.
      * split; [done|]. intros (? & [= <-] & _ & Hsome). simpl in Hsome.
        by destruct Hchart.
      * intros ? ([= <-] & Hclean & _). cbn [success error].
        by rewrite (runError_clean _ Hclean).
  - cbn [fst snd]. split.
    + split; [done|]. intros (? & [= <-] & Hclean & _).
      apply runSuccess_clean in Hclean. congruence.
    + intros ? ([= <-] & Hclean & _).
      apply runSuccess_clean in Hclean. congruence.
Qed.


(** C2: two executions with distinct ids have pairwise distinct script and
    output paths; within one execution the script file and the output file
    carry the same id; and the paths do not depend on the clock, so two
    requests made at the same instant are kept apart all the same. *)
Theorem executionPaths_distinct (e1 e2 : env)
    (r1 r2 : ChartGenerationRequest) :
  is_uuid (uuid e1) = true → is_uuid (uuid e2) = true →
  isOutputFormat (outputFormat r1) = true →
  isOutputFormat (outputFormat r2) = true →
  uuid e1 ≠ uuid e2 →
  NoDup [(executionPaths cwd e1 r1).1; (executionPaths cwd e1 r1).2;
         (executionPaths cwd e2 r2).1; (executionPaths cwd e2 r2).2] ∧
  (executionPaths cwd e1 r1
     = (join (tempDir cwd) (pythonName (uuid e1)),
        join (outputDir cwd) (outputName (uuid e1) (outputFormat r1))) ∧
   stem (pythonName (uuid e1)) = uuid e1 ∧
   stem (outputName (uuid e1) (outputFormat r1)) = uuid e1) ∧
  (∀ t1 t2, executionPaths cwd (atTime e1 t1) r1 = executionPaths cwd e1 r1 ∧
            executionPaths cwd (atTime e2 t2) r2 = executionPaths cwd e2 r2).
Proof.
  intros Hu1 Hu2 Hf1 Hf2 Hne.
  apply is_uuid_length in Hu1, Hu2.
  split; [|split; [|done]].
  - unfold executionPaths, pythonFile, outputFile, tempDir, outputDir,
      pythonName, outputName, join. cbn [fst snd].
    assert (∀ a b : jstring,
               (cwd ++ str "/" ++ str "temp") ++ str "/" ++ a
               ≠ (cwd ++ str "/" ++ str "output") ++ str "/" ++ b) as Hdir.
    { intros a b H. rewrite <- !(assoc_L (++) cwd) in H.
      apply app_inv_head in H. discriminate. }
    assert (∀ a b : jstring,
               (cwd ++ str "/" ++ str "temp") ++ str "/" ++ a ++ str ".py"
               = (cwd ++ str "/" ++ str "temp") ++ str "/" ++ b ++ str ".py"
               → a = b) as Hpy.
    { intros a b H. do 2 apply app_inv_head in H. by apply app_inv_tail in H. }
    assert (∀ f g : jstring,
               (cwd ++ str "/" ++ str "output") ++ str "/"
                 ++ uuid e1 ++ str "." ++ f
               = (cwd ++ str "/" ++ str "output") ++ str "/"
                 ++ uuid e2 ++ str "." ++ g
               → uuid e1 = uuid e2) as Hout.
    { intros f g H. do 2 apply app_inv_head in H.
      apply app_inj_1 in H as [H _]; [done|congruence]. }
    repeat (apply NoDup_cons; split); try apply NoDup_nil_2; set_unfold.
    + intros [H|[H|[H|[]]]].
      * by apply Hdir in H.
      * by apply Hpy in H.
      * by apply Hdir in H.
    + intros [H|[H|[]]].
      * symmetry in H. by apply Hdir in H.
      * by apply Hout in H.
    + intros [H|[]]. by apply Hdir in H.
    + intros [].
  - split; [done|]. unfold pythonName, outputName. split.
    + by apply (stem_extension _ (str "py")).
    + apply (stem_extension _ (outputFormat r1)).
      by apply isOutputFormat_no_dot.
Qed.

End sandbox_facts.

(** ** The retention sweep *)

Section sweep_facts.
Import Sandbox.

(** The file is older than [maxAge] at time [currentTime]. *)
Local Abbreviation older currentTime maxAge f :=
  (Z.of_N currentTime - Z.of_N (mtime f) > maxAge)%Z.

Lemma cleanupLoop_spec (currentTime : N) (maxAge : Z) :
  ∀ (files : list jstring) (d : gmap (list N) file),
    NoDup files →
    (∀ name, name ∈ files → is_Some (d !! name)) →
    ∃ d', cleanupLoop currentTime maxAge files d = (d', None) ∧
          ∀ name,
            d' !! name =
              match d !! name with
              | Some f =>
                  if bool_decide (name ∈ files ∧ older currentTime maxAge f)
                  then None else Some f
              | None => None
              end.
Proof.
  induction files as [|first files IH]; intros d Hnodup Hall.
  - exists d. split; [done|]. intros name.
    destruct (d !! name); [|done]. rewrite bool_decide_eq_false_2; [done|].
    intros [H _]. by apply elem_of_nil in H.
  - apply NoDup_cons in Hnodup as [Hfresh Hnodup].
    destruct (Hall first) as [stats Hstats]; [by left|].
    cbn [cleanupLoop]. rewrite Hstats. case_bool_decide as Hold.
    + destruct (IH (delete first d) Hnodup) as (d' & -> & Hd').
      { intros name Hname. rewrite lookup_delete_ne; [|by intros ->].
        apply Hall. by right. }
      exists d'. split; [done|]. intros name. rewrite Hd'.
      destruct (decide (name = first)) as [->|Hne].
      * rewrite lookup_delete_eq, Hstats.
        rewrite bool_decide_eq_true_2; [done|]. split; [by left|done].
      * rewrite lookup_delete_ne by done. destruct (d !! name); [|done].
        erewrite bool_decide_ext; [reflexivity|].
        split; [intros [Hin ?]; split; [by right|done]|].
        intros [[->|Hin]%elem_of_cons ?]; done.
    + destruct (IH d Hnodup) as (d' & -> & Hd').
      { intros name Hname. apply Hall. by right. }
      exists d'. split; [done|]. intros name. rewrite Hd'.
      destruct (d !! name) as [f|] eqn:Hf; [|done].
      erewrite bool_decide_ext; [reflexivity|].
      split; [intros [Hin ?]; split; [by right|done]|].
      intros [[->|Hin]%elem_of_cons Holder]; [|done].
      rewrite Hstats in Hf. injection Hf as ->. done.
Qed.

Lemma cleanupDirectory_spec (currentTime : N) (maxAge : Z)
    (d : gmap (list N) file) :
  ∃ d', cleanupDirectory currentTime maxAge d = (d', None) ∧
        ∀ name,
          d' !! name =
            match d !! name with
            | Some f =>
                if bool_decide (older currentTime maxAge f)
                then None else Some f
            | None => None
            end.
Proof.
  unfold cleanupDirectory, readdirSync.
  destruct (cleanupLoop_spec currentTime maxAge (map_to_list d).*1 d)
    as (d' & Hd' & Hlookup).
  - apply NoDup_fst_map_to_list.
  - intros name [[n f] [-> Hin]]%list_elem_of_fmap.
    apply elem_of_map_to_list in Hin. by eexists.
  - exists d'. split; [done|]. intros name. rewrite Hlookup.
    destruct (d !! name) as [f|] eqn:Hf; [|done].
    erewrite bool_decide_ext; [reflexivity|].
    split; [by intros [_ ?]|]. intros Hold.
    split; [|done]. apply list_elem_of_fmap. exists (name, f).
    split; [done|]. by apply elem_of_map_to_list.
Qed.

(** C6: after [cleanupOldFiles(maxAge)], in the temp directory and in the
    output directory every file whose modification time is more than
    [maxAge] before the current time is gone, and every file whose
    modification time is within [maxAge] of it is still there, unchanged;
    the uploads are not touched. *)
Theorem cleanupOldFiles_sweeps (e : env) (w : world) (maxAge : Z)
    (name : jstring) (f : file) :
  let w' := cleanupOldFiles e w maxAge in
  (tempFiles w !! name = Some f →
     (older (now e) maxAge f → tempFiles w' !! name = None) ∧
     (¬ older (now e) maxAge f → tempFiles w' !! name = Some f)) ∧
  (outputFiles w !! name = Some f →
     (older (now e) maxAge f → outputFiles w' !! name = None) ∧
     (¬ older (now e) maxAge f → outputFiles w' !! name = Some f)) ∧
  (∀ other, tempFiles w !! other = None → tempFiles w' !! other = None) ∧
  (∀ other, outputFiles w !! other = None → outputFiles w' !! other = None) ∧
  uploadFiles w' = uploadFiles w.
Proof.
  cbv zeta. unfold cleanupOldFiles.
  destruct (cleanupDirectory_spec (now e) maxAge (tempFiles w))
    as (t' & -> & Ht').
  destruct (cleanupDirectory_spec (now e) maxAge (outputFiles w))
    as (o' & -> & Ho').
  cbn [tempFiles outputFiles uploadFiles].
  split; [|split; [|split; [|split; [|done]]]].
  - intros Hfile. split.
    + intros Hold. rewrite Ht', Hfile. by rewrite bool_decide_eq_true_2.
    + intros Hyoung. rewrite Ht', Hfile. by rewrite bool_decide_eq_false_2.
  - intros Hfile. split.
    + intros Hold. rewrite Ho', Hfile. by rewrite bool_decide_eq_true_2.
    + intros Hyoung. rewrite Ho', Hfile. by rewrite bool_decide_eq_false_2.
  - intros other Hnone. by rewrite Ht', Hnone.
  - intros other Hnone. by rewrite Ho', Hnone.
Qed.
End sweep_facts.

(** ** The chart routes *)

Section results_facts.
Import ResultsController.

End results_facts.

(** ** The visualize pipeline *)

Section pipeline_facts.
Import AnalysisController.
Context (cwd : jstring).
Context (setupCode : jstring → jstring).
Context (cleanupCode : jstring → jstring → jstring).
Context (python : jstring → world → thrown + Sandbox.pythonRun).
Context (numericString : jstring → bool).
Context (parsesAsDate : FileProcessing.cell → bool).
Context (extname : jstring → jstring).
Context (sheetRows :
           jstring → thrown + option (list (list FileProcessing.cell))).
Context (headerNames : list FileProcessing.cell → list jstring).
Context (provider : AIService.AIAnalysisRequest → thrown + jstring).

(** C8: when the dataset is found and the analysis stage returns, but the
    sandbox reports failure or produces no chart path, the caller of
    [POST /visualize] receives the failure response (status 400) with the
    full analysis fields: id, query, analysis text, visualization type,
    explanation and time stamp. *)
Theorem visualize_keeps_analysis (eDataset eAnalysis eExecution : env)
    (w w1 w2 : world) (body : visualizeBody)
    (datasetInfo : FileProcessing.DatasetInfo)
    (aiResponse : AIService.AIAnalysisResponse)
    (executionResult : Sandbox.PythonExecutionResult) :
  truthy (query body) && truthy (datasetId body)
    && truthy (aiModel body) && truthy (outputFormat body) = true →
  FileProcessing.getDatasetInfo cwd numericString parsesAsDate extname
    sheetRows headerNames eDataset w (datasetId body)
    = (Some datasetInfo, w1) →
  AIService.analyzeData provider eAnalysis (analysisRequest body datasetInfo)
    = inr aiResponse →
  Sandbox.executePythonCode cwd setupCode cleanupCode python eExecution w1
    (executionRequest body datasetInfo aiResponse) = (executionResult, w2) →
  Sandbox.success executionResult = false
    ∨ Sandbox.chartPath executionResult = None →
  let answer :=
    (visualize cwd setupCode cleanupCode python numericString parsesAsDate
       extname sheetRows headerNames provider eDataset eAnalysis eExecution
       w body).1 in
  status answer = 400 ∧
  success answer = Some false ∧
  analysisOf answer =
    Some {| id := AIService.id aiResponse;
            queryOf := query body;
            analysis := AIService.analysis (AIService.parsed aiResponse);
            visualizationType :=
              AIService.visualizationType (AIService.parsed aiResponse);
            explanation :=
              AIService.explanation (AIService.parsed aiResponse);
            timestamp := AIService.timestamp aiResponse |}.
Proof.
  intros Hbody Hdataset Hanalysis Hexecution Hfailed. cbv zeta.
  unfold visualize.
  apply andb_true_iff in Hbody as [Hbody Hformat].
  apply andb_true_iff in Hbody as [Hbody Hmodel].
  apply andb_true_iff in Hbody as [Hquery Hid].
  rewrite Hquery, Hid, Hmodel, Hformat. cbn [negb orb].
  rewrite Hdataset, Hanalysis, Hexecution.
  destruct Hfailed as [-> | ->]; [done|].
  by rewrite andb_false_r.
Qed.
End pipeline_facts.

Lemma visualize_keeps_analysis_witness :
  let aiResponse :=
    {| AIService.parsed :=
         parseAIResponse
           (str "ANALYSIS: Sales rise. CODE: df2.plot() VISUALIZATION_TYPE: line EXPLANATION: The trend.");
       AIService.id := Samples.uuidC;
       AIService.timestamp := 1700000000000 |} in
  let answer :=
    (AnalysisController.visualize Samples.cwd Samples.noCode Samples.noCode2
       Samples.failingPython Samples.numericString Samples.parsesAsDate
       Samples.extname Samples.sheetRows Samples.headerNames Samples.provider
       Samples.envB Samples.envC Samples.envA Samples.oneUpload
       Samples.visualizeBody).1 in
  AnalysisController.status answer = 400 ∧
  AnalysisController.success answer = Some false ∧
  AnalysisController.analysisOf answer =
    Some (AnalysisController.analysisViewOf Samples.visualizeBody aiResponse).
Proof.
  cbv zeta.
  eapply (visualize_keeps_analysis Samples.cwd Samples.noCode Samples.noCode2
            Samples.failingPython Samples.numericString Samples.parsesAsDate
            Samples.extname Samples.sheetRows Samples.headerNames
            Samples.provider Samples.envB Samples.envC Samples.envA
            Samples.oneUpload).
  - vm_compute. reflexivity.
  - vm_compute. reflexivity.
  - vm_compute. reflexivity.
  - vm_compute. reflexivity.
  - left. vm_compute. reflexivity.
Defined.

Lemma executionPaths_distinct_witness :
  now Samples.envA = now Samples.envB ∧
  NoDup [(Sandbox.executionPaths Samples.cwd Samples.envA Samples.pngRequest).1;
         (Sandbox.executionPaths Samples.cwd Samples.envA Samples.pngRequest).2;
         (Sandbox.executionPaths Samples.cwd Samples.envB Samples.htmlRequest).1;
         (Sandbox.executionPaths Samples.cwd Samples.envB Samples.htmlRequest).2].
Proof.
  split; [reflexivity|].
  apply (executionPaths_distinct Samples.cwd Samples.envA Samples.envB
           Samples.pngRequest Samples.htmlRequest).
  - vm_compute. reflexivity.
  - vm_compute. reflexivity.
  - vm_compute. reflexivity.
  - vm_compute. reflexivity.
  - vm_compute. discriminate.
Defined.

(** ** Type inference on ingestion *)

Section infer_facts.
Import FileProcessing.
Context (numericString : jstring → bool).
Context (parsesAsDate : cell → bool).

Local Abbreviation inferType := (inferType numericString parsesAsDate).
Local Abbreviation inferColumn := (inferColumn numericString parsesAsDate).
Local Abbreviation inferDataTypes :=
  (inferDataTypes numericString parsesAsDate).

(** The first element of a filtered list is the first element that passes
    the filter. *)
Lemma head_filter_find {A} (p : A → bool) (l : list A) :
  head (List.filter p l) = List.find p l.
Proof.
  induction l as [|x l IH]; simpl; [done|]. by destruct (p x).
Qed.

(** The type of a column is inferred from its first non-empty value. *)
Lemma inferColumn_first (dataRows : list (list cell)) (colIndex : nat) :
  inferColumn dataRows colIndex =
    match List.find nonEmpty
            ((λ row, default CUndefined (row !! colIndex)) <$> dataRows) with
    | Some sampleValue => inferType sampleValue
    | None => str "string"
    end.
Proof.
  unfold FileProcessing.inferColumn, columnValues.
  rewrite <- head_filter_find. by destruct (List.filter _ _).
Qed.

Lemma inferType_range (sampleValue : cell) :
  inferType sampleValue ∈ [str "number"; str "date"; str "string"].
Proof.
  unfold FileProcessing.inferType.
  destruct (_ || _); [set_solver|]. destruct (_ || _); set_solver.
Qed.

(** Appending a header records the type of the new, last column under its
    name. *)
Lemma inferDataTypes_snoc (headers : list jstring) (header : jstring)
    (dataRows : list (list cell)) :
  inferDataTypes (headers ++ [header]) dataRows
  = <[header := inferColumn dataRows (length headers)]>
      (inferDataTypes headers dataRows).
Proof.
  unfold FileProcessing.inferDataTypes.
  rewrite imap_app, foldl_app. simpl. by rewrite Nat.add_0_r.
Qed.


End infer_facts.



(** ** Dataset ids and stored names *)

Lemma uuidFrom_lookup (i j : nat) (s : jstring) (c : N) :
  uuidFrom i s = true → s !! j = Some c →
  if dashAt (i + j) then c = 45%N else is_hex c = true.
Proof.
  revert i j. induction s as [|a s IH]; intros i j Hs Hj; [done|].
  simpl in Hs. apply andb_true_iff in Hs as [Ha Hs].
  destruct j as [|j]; simpl in Hj.
  - injection Hj as <-. rewrite Nat.add_0_r.
    destruct (dashAt i); [by apply N.eqb_eq|done].
  - replace (i + S j) with (S i + j) by lia. by apply IH.
Qed.

Lemma is_uuid_dash (s : jstring) (j : nat) :
  is_uuid s = true → s !! j = Some 45%N → dashAt j = true.
Proof.
  intros Hs Hj. pose proof (uuidFrom_lookup 0 j s 45 Hs Hj) as H.
  simpl in H. by destruct (dashAt j).
Qed.

Lemma is_uuid_dash_at (s : jstring) (j : nat) :
  is_uuid s = true → dashAt j = true → s !! j = Some 45%N.
Proof.
  intros Hs Hj. pose proof (is_uuid_length s Hs) as Hlen.
  apply bool_decide_eq_true in Hj as Hj'.
  destruct (s !! j) as [c|] eqn:E.
  - pose proof (uuidFrom_lookup 0 j s c Hs E) as H. simpl in H.
    rewrite Hj in H. by rewrite H.
  - apply lookup_ge_None in E. lia.
Qed.

(** The dashes of a stored name are those of its stem id and the one that
    follows it. *)
Lemma middlewareName_dash (stemId tail : jstring) (p : nat) :
  is_uuid stemId = true → 45%N ∉ tail →
  (stemId ++ str "-" ++ tail) !! p = Some 45%N →
  p = 8 ∨ p = 13 ∨ p = 18 ∨ p = 23 ∨ p = 36.
Proof.
  intros Hu Htail Hp. pose proof (is_uuid_length _ Hu) as Hlen.
  destruct (decide (p < 36)) as [Hlt|Hge].
  - rewrite lookup_app_l in Hp by lia.
    apply (is_uuid_dash _ _ Hu), bool_decide_eq_true in Hp. lia.
  - destruct (decide (p = 36)) as [->|Hne]; [lia|].
    rewrite lookup_app_r in Hp by lia.
    change (str "-" ++ tail) with (45%N :: tail) in Hp.
    destruct (p - length stemId) as [|q] eqn:Hq; [lia|]. simpl in Hp.
    exfalso. apply Htail. by eapply list_elem_of_lookup_2.
Qed.

(** A uuid occurs in a stored name only as its stem id. *)
Lemma includes_middlewareName (name stemId datasetId : jstring) :
  FileProcessing.middlewareName name stemId →
  is_uuid datasetId = true →
  includes name datasetId = true → datasetId = stemId.
Proof.
  intros (tail & -> & Hu & Htail) Hid Hinc.
  apply includes_spec in Hinc as (a & b & Heq).
  pose proof (is_uuid_length _ Hu) as Hlen.
  pose proof (is_uuid_length _ Hid) as Hlen'.
  assert (∀ j, dashAt j = true →
               length a + j = 8 ∨ length a + j = 13 ∨ length a + j = 18
               ∨ length a + j = 23 ∨ length a + j = 36) as Hdash.
  { intros j Hj. apply (middlewareName_dash stemId tail); [done|done|].
    rewrite Heq, lookup_app_r by lia.
    replace (length a + j - length a) with j by lia.
    apply bool_decide_eq_true in Hj as Hj'.
    rewrite lookup_app_l by lia. by apply is_uuid_dash_at. }
  pose proof (Hdash 8 eq_refl). pose proof (Hdash 13 eq_refl).
  pose proof (Hdash 18 eq_refl). pose proof (Hdash 23 eq_refl).
  assert (length a = 0) as Ha by lia.
  destruct a; [|done]. simpl in Heq.
  apply app_inj_1 in Heq as [-> _]; [done|lia].
Qed.

Lemma string_of_uint_digits (u : Decimal.uint) :
  Forall (λ c, is_digit c = true) (str (NilEmpty.string_of_uint u)).
Proof. induction u; simpl; by constructor. Qed.

Lemma decimal_no_dash (n : N) : 45%N ∉ decimal n.
Proof.
  intros Hin. pose proof (string_of_uint_digits (N.to_uint n)) as Hdigits.
  rewrite Forall_forall in Hdigits. by apply Hdigits in Hin.
Qed.

Lemma toLowerCase_dash (s : jstring) : 45%N ∈ s → 45%N ∈ toLowerCase s.
Proof. intros H. by apply (list_elem_of_fmap_2 lowerUnit) in H. Qed.

Lemma find_none_all {A} (p : A → bool) (l : list A) :
  (∀ x, x ∈ l → p x = false) → List.find p l = None.
Proof.
  induction l as [|x l IH]; intros Hall; [done|]. simpl.
  rewrite (Hall x) by left. apply IH. intros y Hy. apply Hall. by right.
Qed.

Section dataset_facts.
Import FileProcessing.
Context (cwd : jstring).
Context (numericString : jstring → bool).
Context (parsesAsDate : cell → bool).
Context (extname : jstring → jstring).
Context (sheetRows : jstring → thrown + option (list (list cell))).
Context (headerNames : list cell → list jstring).

Local Abbreviation processUploadedFile :=
  (processUploadedFile cwd numericString parsesAsDate extname sheetRows
     headerNames).
Local Abbreviation getDatasetInfo :=
  (getDatasetInfo cwd numericString parsesAsDate extname sheetRows
     headerNames).

(** An extension that passes the upload filter has no dash. *)
Lemma fileFilter_no_dash (originalName : jstring) :
  fileFilter extname originalName = true → 45%N ∉ extname originalName.
Proof.
  intros Hfilter%bool_decide_eq_true Hdash. apply toLowerCase_dash in Hdash.
  unfold allowedExtensions in Hfilter. set_unfold in Hfilter.
  destruct Hfilter as [H|[H|[H|[]]]]; rewrite H in Hdash;
    refute_member Hdash.
Qed.

(** The middleware names a stored file after the uuid it draws. *)
Lemma uniqueName_middleware (e : env) (originalName : jstring) :
  is_uuid (uuid e) = true → fileFilter extname originalName = true →
  middlewareName (uniqueName extname e originalName) (uuid e).
Proof.
  intros Hu Hfilter. exists (decimal (now e) ++ extname originalName).
  split; [done|]. split; [done|].
  apply not_elem_of_app. split; [apply decimal_no_dash|].
  by apply fileFilter_no_dash.
Qed.

Lemma upload_stored (e : env) (w w1 : world) (f : clientFile)
    (file : MulterFile) :
  upload extname e w f = inr (file, w1) →
  fileFilter extname (clientName f) = true ∧
  mfilename file = uniqueName extname e (clientName f) ∧
  uploadFiles w1
  = <[uniqueName extname e (clientName f)
      := File (clientData f) (now e)]> (uploadFiles w).
Proof.
  unfold upload, writeFileSync.
  destruct (fileFilter extname (clientName f)); [|done]. cbn [negb].
  destruct (_ <? _)%N; [done|].
  destruct (writeError e); [done|]. by intros [= <- <-].
Qed.

(** A successful processing leaves the stored files as they are and gives
    the dataset the uuid drawn by this call. *)
Lemma processUploadedFile_id (e : env) (w w' : world) (file : MulterFile)
    (result : FileUploadResult) (info : DatasetInfo) :
  processUploadedFile e w file = (result, w') →
  datasetInfo result = Some info →
  id info = uuid e ∧ filename info = mfilename file ∧ w' = w.
Proof.
  unfold FileProcessing.processUploadedFile.
  destruct (uploadFiles w !! mfilename file) as [stored|].
  - destruct (_ || _).
    + unfold processCSVFile. destruct (_ <? _).
      * intros [= <- <-]. done.
      * intros [= <- <-] [= <-]. done.
    + unfold processExcelFile. destruct (sheetRows _) as [t|[jsonData|]].
      * intros [= <- <-]. done.
      * destruct (_ <? _).
        -- intros [= <- <-]. done.
        -- intros [= <- <-] [= <-]. done.
      * intros [= <- <-]. done.
  - intros [= <- <-]. done.
Qed.

(** The lookup finds nothing when no stored name contains the id. *)
Lemma getDatasetInfo_none (e : env) (w : world) (datasetId : jstring) :
  (∀ name, is_Some (uploadFiles w !! name) →
           includes name datasetId = false) →
  getDatasetInfo e w datasetId = (None, w).
Proof.
  intros Hall. unfold FileProcessing.getDatasetInfo.
  rewrite find_none_all; [done|].
  intros name [[n f] [-> Hin]]%list_elem_of_fmap.
  apply elem_of_map_to_list in Hin. apply Hall. by eexists.
Qed.

(** C10: the id of the dataset returned for an upload is the uuid drawn
    while the file is processed, not the one in the stored file name (whose
    stem is the uuid drawn by the upload middleware, followed by a time
    stamp); [getDatasetInfo] looks an id up among the stored names only; so
    when the two uuids differ -- and no older upload has that stem either --
    looking up the id just returned finds nothing. *)
Theorem getDatasetInfo_misses_returned_id
    (eUpload eProcess eLookup : env) (w w1 w2 : world) (f : clientFile)
    (file : MulterFile) (result : FileUploadResult) (info : DatasetInfo) :
  is_uuid (uuid eUpload) = true →
  is_uuid (uuid eProcess) = true →
  uuid eProcess ≠ uuid eUpload →
  freshFor w (uuid eProcess) →
  upload extname eUpload w f = inr (file, w1) →
  processUploadedFile eProcess w1 file = (result, w2) →
  datasetInfo result = Some info →
  id info = uuid eProcess ∧
  filename info
    = uuid eUpload ++ str "-" ++ decimal (now eUpload)
      ++ extname (clientName f) ∧
  getDatasetInfo eLookup w2 (id info) = (None, w2).
Proof.
  intros HuUpload HuProcess Hdiffer Hfresh Hupload Hprocess Hinfo.
  destruct (upload_stored _ _ _ _ _ Hupload) as (Hfilter & Hname & Hfiles).
  destruct (processUploadedFile_id _ _ _ _ _ _ Hprocess Hinfo)
    as (Hid & Hfilename & ->).
  split; [done|]. split; [by rewrite Hfilename, Hname|].
  apply getDatasetInfo_none. intros name Hstored.
  destruct (includes name (id info)) eqn:Hinc; [exfalso|done].
  rewrite Hid in Hinc. rewrite Hfiles in Hstored.
  apply lookup_insert_is_Some in Hstored as [<-|[_ Hold]].
  - apply Hdiffer.
    by apply (includes_middlewareName _ _ _
                (uniqueName_middleware eUpload _ HuUpload Hfilter)).
  - destruct (Hfresh name Hold) as (stemId & Hshape & Hne).
    apply Hne. symmetry.
    by apply (includes_middlewareName _ _ _ Hshape).
Qed.
End dataset_facts.

Lemma getDatasetInfo_misses_returned_id_witness :
  ∃ (file : FileProcessing.MulterFile) (w1 : world)
    (info : FileProcessing.DatasetInfo),
    FileProcessing.upload Samples.extname Samples.envB Samples.oneUpload
      Samples.clientCsv = inr (file, w1) ∧
    FileProcessing.datasetInfo
      (FileProcessing.processUploadedFile Samples.cwd Samples.numericString
         Samples.parsesAsDate Samples.extname Samples.sheetRows
         Samples.headerNames Samples.envC w1 file).1 = Some info ∧
    (FileProcessing.id info = uuid Samples.envC ∧
     FileProcessing.filename info
       = uuid Samples.envB ++ str "-" ++ decimal (now Samples.envB)
         ++ Samples.extname (FileProcessing.clientName Samples.clientCsv) ∧
     FileProcessing.getDatasetInfo Samples.cwd Samples.numericString
       Samples.parsesAsDate Samples.extname Samples.sheetRows
       Samples.headerNames Samples.envA w1 (FileProcessing.id info)
     = (None, w1)).
Proof.
  do 3 eexists.
  split; [vm_compute; reflexivity|]. split; [vm_compute; reflexivity|].
  eapply (getDatasetInfo_misses_returned_id Samples.cwd Samples.numericString
            Samples.parsesAsDate Samples.extname Samples.sheetRows
            Samples.headerNames Samples.envB Samples.envC Samples.envA
            Samples.oneUpload).
  - vm_compute. reflexivity.
  - vm_compute. reflexivity.
  - vm_compute. discriminate.
  - intros name [stored Hstored].
    unfold Samples.oneUpload in Hstored. cbn [uploadFiles] in Hstored.
    apply lookup_singleton_Some in Hstored as [<- _].
    exists Samples.uuidA. split; [|vm_compute; discriminate].
    exists (str "1700000000000.csv").
    split; [reflexivity|]. split; [vm_compute; reflexivity|].
    intros Hdash. refute_member Hdash.
  - vm_compute. reflexivity.
  - vm_compute. reflexivity.
  - vm_compute. reflexivity.
Defined.

(** ** Worked examples *)

(** Greedy and lazy iteration differ as in ECMAScript: a greedy capture
    before [b] runs up to the last [b], a lazy one up to the first. *)
Example greedy_star_backtracks :
  capture <$> search (Seq (Group (Star true (Unit (λ _, true)))) (lit (str "b")))
                (str "abcb")
  = Some (Some (str "abc")).
Proof. vm_compute. reflexivity. Qed.

Example lazy_star_stops_early :
  capture <$> search (Seq (Group (Star false (Unit (λ _, true)))) (lit (str "b")))
                (str "abcb")
  = Some (Some (str "a")).
Proof. vm_compute. reflexivity. Qed.

(** The sections of a reply are found in any order; a missing tag gives the
    placeholder. *)
Example parse_any_order :
  parseAIResponse
    (str "x ANALYSIS:  rising  CODE: plot() EXPLANATION:VISUALIZATION_TYPE: bar ")
  = {| analysis := str "rising";
       pythonCode := str "plot()";
       visualizationType := str "bar";
       explanation := explanationPlaceholder |}.
Proof. vm_compute. reflexivity. Qed.

Example parse_no_tags :
  parseAIResponse (str "I cannot help with that.")
  = {| analysis := analysisPlaceholder;
       pythonCode := codePlaceholder;
       visualizationType := visualizationTypePlaceholder;
       explanation := explanationPlaceholder |}.
Proof. vm_compute. reflexivity. Qed.

(** A clean run that saves nothing is a failure with the default message,
    and the script is gone afterwards. *)
Example clean_run_without_chart :
  let outcome :=
    Sandbox.executePythonCode Samples.cwd Samples.noCode Samples.noCode2
      Samples.idlePython Samples.envA Samples.oneUpload Samples.pngRequest in
  Sandbox.success outcome.1 = false ∧
  Sandbox.error outcome.1 = Some (str "Chart generation failed") ∧
  outcome.2 = Samples.oneUpload.
Proof. vm_compute. repeat split. Qed.

Example clean_run_with_chart :
  let outcome :=
    Sandbox.executePythonCode Samples.cwd Samples.noCode Samples.noCode2
      Samples.plottingPython Samples.envA Samples.oneUpload Samples.pngRequest in
  Sandbox.success outcome.1 = true ∧
  Sandbox.chartPath outcome.1
    = Some (str "/srv/ova/output/3f2b8c1e-9a4d-4e7f-8b21-0c5d6e7f8a90.png") ∧
  tempFiles outcome.2 = ∅ ∧
  is_Some (outputFiles outcome.2 !! (Samples.uuidA ++ str ".png")).
Proof. vm_compute. repeat split. by eexists. Qed.

(** The sweep with a limit of one minute at time 100000 removes the files
    stamped 1000 and keeps the one stamped 90000. *)
Example sweep_one_minute :
  Sandbox.cleanupOldFiles (Env [] 100000 None) Samples.agedWorld 60000
  = World ∅ {[ str "new.png" := File (str "PNG") 90000 ]} ∅.
Proof. vm_compute. reflexivity. Qed.

(** A header row that repeats a name: one entry, typed after the last of the
    two columns. *)
Example repeated_header_types :
  match FileProcessing.processCSVFile Samples.numericString
          Samples.parsesAsDate Samples.envC Samples.repeatedHeaderCsv
          (str "/srv/ova/uploads/pairs") Samples.repeatedHeaderFile with
  | inr info =>
      FileProcessing.columns info = [str "a"; str "a"] ∧
      FileProcessing.dataTypes info = {[ str "a" := str "string" ]}
  | inl _ => False
  end.
Proof. vm_compute. split; reflexivity. Qed.

(** Looking a dataset up by the stem of its stored name finds it, and gives
    it yet another id. *)
Example lookup_by_stem :
  FileProcessing.id
  <$> (FileProcessing.getDatasetInfo Samples.cwd Samples.numericString
         Samples.parsesAsDate Samples.extname Samples.sheetRows
         Samples.headerNames Samples.envB Samples.oneUpload Samples.uuidA).1
  = Some Samples.uuidB.
Proof. vm_compute. reflexivity. Qed.

(* ================================================================== *)
(** * Further properties of the services *)
(* ================================================================== *)

(** ** Trimming *)

Lemma trimStart_head (s : jstring) :
  match trimStart s with
  | c :: _ => is_space c = false
  | [] => True
  end.
Proof.
  induction s as [|c s IH]; simpl; [done|].
  destruct (is_space c) eqn:Hc; [done|]. by simpl.
Qed.

Lemma trimStart_snoc (l : jstring) (c : N) :
  is_space c = false → trimStart (l ++ [c]) = trimStart l ++ [c].
Proof.
  intros Hc. induction l as [|a l IH]; simpl; [by rewrite Hc|].
  by destruct (is_space a).
Qed.

Lemma trimEnd_cons (c : N) (s : jstring) :
  is_space c = false → trimEnd (c :: s) = c :: trimEnd s.
Proof.
  intros Hc. unfold trimEnd. rewrite reverse_cons, trimStart_snoc by done.
  by rewrite reverse_app.
Qed.

Lemma trimEnd_idemp (s : jstring) : trimEnd (trimEnd s) = trimEnd s.
Proof. unfold trimEnd. by rewrite reverse_involutive, trimStart_idemp. Qed.

(** A trimmed string has no white space left at either end. *)
Lemma trim_idemp (s : jstring) : trim (trim s) = trim s.
Proof.
  unfold trim. pose proof (trimStart_head s) as Hhead.
  destruct (trimStart s) as [|c t] eqn:E; [done|].
  rewrite (trimEnd_cons c t Hhead). cbn [trimStart]. rewrite Hhead.
  by rewrite <- (trimEnd_cons c t Hhead), trimEnd_idemp.
Qed.

Lemma trimStart_subseteq (s : jstring) (c : N) : c ∈ trimStart s → c ∈ s.
Proof.
  induction s as [|a s IH]; simpl; [done|].
  destruct (is_space a); [|done]. intros H. right. by apply IH.
Qed.

Lemma trim_subseteq (s : jstring) (c : N) : c ∈ trim s → c ∈ s.
Proof.
  unfold trim, trimEnd. rewrite elem_of_reverse. intros H.
  apply trimStart_subseteq in H. rewrite elem_of_reverse in H.
  by apply trimStart_subseteq.
Qed.

(** ** CSV lines *)

Section csv_facts.
Import FileProcessing CsvText.

Lemma split_nonempty (sep : N) (s : jstring) : split sep s ≠ [].
Proof.
  destruct s as [|c s]; simpl; [done|].
  destruct (c =? sep)%N; [done|]. by destruct (split sep s).
Qed.

(** The loop on text without quotes: the pending text is completed by the
    first piece, the other pieces become fields of their own. *)
Lemma parseCSVLoop_unquoted (line : jstring) :
  34%N ∉ line →
  ∀ (result : list jstring) (current : jstring),
    parseCSVLoop line result current false
    = result ++ match split 44 line with
                | piece :: pieces => trim (current ++ piece) :: (trim <$> pieces)
                | [] => []
                end.
Proof.
  induction line as [|c line IH]; intros Hquote result current.
  - simpl. by rewrite app_nil_r.
  - apply not_elem_of_cons in Hquote as [Hc Hquote]. cbn [parseCSVLoop split].
    destruct (c =? 34)%N eqn:E34; [apply N.eqb_eq in E34; congruence|].
    destruct (c =? 44)%N eqn:E44; cbn [andb negb].
    + rewrite (IH Hquote). rewrite app_nil_r.
      pose proof (split_nonempty 44 line) as Hne.
      destruct (split 44 line) as [|piece pieces]; [done|].
      by rewrite <- app_assoc.
    + rewrite (IH Hquote).
      pose proof (split_nonempty 44 line) as Hne.
      destruct (split 44 line) as [|piece pieces]; [done|].
      by rewrite <- app_assoc.
Qed.

(** X1: on a line without double quotes, [parseCSVLine] is the split at the
    commas followed by the trimming of every piece; in particular an empty
    line gives one empty field. *)
Theorem parseCSVLine_unquoted (line : jstring) :
  34%N ∉ line → parseCSVLine line = trim <$> split 44 line.
Proof.
  intros Hquote. unfold parseCSVLine.
  rewrite (parseCSVLoop_unquoted line Hquote).
  pose proof (split_nonempty 44 line) as Hne.
  by destruct (split 44 line).
Qed.

Lemma parseCSVLine_unquoted_witness :
  parseCSVLine (str " north , 10,,south ")
  = trim <$> split 44 (str " north , 10,,south ").
Proof.
  apply (parseCSVLine_unquoted (str " north , 10,,south ")).
  intros Hin. refute_member Hin.
Defined.

Lemma parseCSVLoop_fields (line : jstring) :
  ∀ (result : list jstring) (current : jstring),
    Forall plainField result →
    34%N ∉ current →
    ∀ inQuotes,
      Forall plainField
        (parseCSVLoop line result current inQuotes).
Proof.
  assert (∀ current : jstring,
            34%N ∉ current →
            (34%N ∉ trim current) ∧ trim (trim current) = trim current) as Htrim.
  { intros current Hcur. split; [|apply trim_idemp].
    intros Hin. by apply Hcur, trim_subseteq. }
  induction line as [|c line IH]; intros result current Hres Hcur inQuotes.
  - simpl. apply Forall_app. split; [done|]. constructor; [|done].
    by apply Htrim.
  - cbn [parseCSVLoop]. destruct (c =? 34)%N eqn:E34; [by apply IH|].
    destruct ((c =? 44)%N && negb inQuotes).
    + apply IH; [|apply not_elem_of_nil].
      apply Forall_app. split; [done|]. constructor; [|done]. by apply Htrim.
    + apply IH; [done|]. apply not_elem_of_app. split; [done|].
      apply not_elem_of_cons. split; [|apply not_elem_of_nil].
      intros Heq. subst c. by rewrite N.eqb_refl in E34.
Qed.

(** X2: whatever the line, no field returned by [parseCSVLine] contains a
    double quote (quotes only switch the quoting state and are dropped, also
    a doubled quote inside a quoted field), every field comes out trimmed,
    and there is at least one field. *)
Theorem parseCSVLine_fields (line : jstring) :
  Forall plainField (parseCSVLine line) ∧
  parseCSVLine line ≠ [].
Proof.
  split.
  - apply parseCSVLoop_fields; [done|apply not_elem_of_nil].
  - unfold parseCSVLine. generalize (@nil jstring) at 1.
    generalize (@nil N). generalize false.
    induction line as [|c line IH]; intros inQuotes current result; simpl.
    + by destruct result.
    + destruct (c =? 34)%N; [apply IH|].
      destruct ((c =? 44)%N && negb inQuotes); apply IH.
Qed.

Lemma parseCSVLoop_inside (field : jstring) :
  34%N ∉ field →
  ∀ (rest : jstring) (result : list jstring) (current : jstring),
    parseCSVLoop (field ++ rest) result current true
    = parseCSVLoop rest result (current ++ field) true.
Proof.
  induction field as [|c field IH]; intros Hquote rest result current.
  - simpl. by rewrite app_nil_r.
  - apply not_elem_of_cons in Hquote as [Hc Hquote]. cbn [app parseCSVLoop].
    destruct (c =? 34)%N eqn:E34; [apply N.eqb_eq in E34; congruence|].
    cbn [negb]. rewrite andb_false_r. rewrite (IH Hquote).
    by rewrite <- app_assoc.
Qed.

Lemma parseCSVLoop_quoted (field rest : jstring) (result : list jstring)
    (current : jstring) :
  34%N ∉ field →
  parseCSVLoop (quoted field ++ rest) result current false
  = parseCSVLoop rest result (current ++ field) false.
Proof.
  intros Hquote. unfold quoted. cbn [app parseCSVLoop N.eqb Pos.eqb negb].
  rewrite <- app_assoc. rewrite (parseCSVLoop_inside field Hquote).
  reflexivity.
Qed.

Lemma parseCSVLoop_row (fields : list jstring) :
  Forall plainField fields →
  ∀ (first : jstring) (result : list jstring),
    34%N ∉ first → trim first = first →
    parseCSVLoop (commaJoin (quoted <$> first :: fields)) result [] false
    = result ++ first :: fields.
Proof.
  induction 1 as [|second fields [Hq Ht] Hfields IH];
    intros first result Hfirst Htrim.
  - cbn [fmap list_fmap commaJoin].
    rewrite <- (app_nil_r (quoted first)), parseCSVLoop_quoted by done.
    simpl. by rewrite Htrim.
  - change (commaJoin (quoted <$> first :: second :: fields))
      with (quoted first ++ [44%N] ++ commaJoin (quoted <$> second :: fields)).
    rewrite parseCSVLoop_quoted by done.
    cbn [app parseCSVLoop N.eqb Pos.eqb negb andb].
    rewrite (IH second (result ++ [trim first]) Hq Ht).
    by rewrite Htrim, <- app_assoc.
Qed.

(** X3: a row written with every field between double quotes and commas
    between the fields is read back field by field, commas inside the fields
    included, provided no field contains a double quote and every field is
    trimmed. *)
Theorem parseCSVLine_quoted_row (fields : list jstring) :
  fields ≠ [] →
  Forall plainField fields →
  parseCSVLine (commaJoin (quoted <$> fields)) = fields.
Proof.
  intros Hne Hfields. destruct fields as [|first fields]; [done|].
  apply Forall_cons in Hfields as [[Hq Ht] Hfields].
  unfold parseCSVLine. by rewrite parseCSVLoop_row.
Qed.

Lemma parseCSVLine_quoted_row_witness :
  parseCSVLine (commaJoin (quoted <$> [str "Doe, Jane"; str ""; str "42"]))
  = [str "Doe, Jane"; str ""; str "42"].
Proof.
  apply (parseCSVLine_quoted_row [str "Doe, Jane"; str ""; str "42"]).
  - discriminate.
  - repeat constructor; try (vm_compute; reflexivity);
      intros Hin; refute_member Hin.
Defined.
End csv_facts.

(** ** The parsed reply *)

(** X4: no field of a parsed reply is empty and none has white space at its
    ends, whatever the reply: a section that is missing or blank is replaced
    by its placeholder, so the code handed to the sandbox is never the empty
    string. *)
Theorem parseAIResponse_fields_solid (response : jstring) (f : field) :
  valueOf (parseAIResponse response) f ≠ [] ∧
  trim (valueOf (parseAIResponse response) f)
  = valueOf (parseAIResponse response) f.
Proof.
  rewrite parseAIResponse_field.
  assert (placeholderOf f ≠ [] ∧ trim (placeholderOf f) = placeholderOf f)
    as [Hne Htrim] by (destruct f; split; (discriminate || reflexivity)).
  destruct (sectionOf f response) as [sec|]; [|done].
  unfold or_else. destruct (trim sec) as [|c t] eqn:E; simpl; [done|].
  split; [done|]. rewrite <- E. apply trim_idemp.
Qed.

(** ** The type mapping *)

Section mapping_facts.
Import FileProcessing.
Context (numericString : jstring → bool).
Context (parsesAsDate : cell → bool).

Local Abbreviation inferDataTypes :=
  (inferDataTypes numericString parsesAsDate).

Lemma inferColumn_range (dataRows : list (list cell)) (colIndex : nat) :
  inferColumn numericString parsesAsDate dataRows colIndex
    ∈ [str "number"; str "date"; str "string"].
Proof.
  rewrite inferColumn_first. destruct (List.find _ _).
  - apply inferType_range.
  - do 2 right. left.
Qed.

(** The keys of the mapping are the header names. *)
Lemma inferDataTypes_dom (headers : list jstring)
    (dataRows : list (list cell)) :
  dom (inferDataTypes headers dataRows) = list_to_set headers.
Proof.
  induction headers as [|last headers IH] using rev_ind; [done|].
  rewrite inferDataTypes_snoc, dom_insert_L, IH, list_to_set_app_L. simpl.
  by rewrite (right_id_L ∅ (∪)), (comm_L (∪)).
Qed.

(** X5: the type mapping has exactly the header names as its keys -- a name
    that occurs several times gives one key -- and every type in it is one of
    number, date and string; without headers the mapping is empty. *)
Theorem inferDataTypes_keys (headers : list jstring)
    (dataRows : list (list cell)) :
  dom (inferDataTypes headers dataRows) = list_to_set headers ∧
  ∀ header type,
    inferDataTypes headers dataRows !! header = Some type →
    header ∈ headers ∧ type ∈ [str "number"; str "date"; str "string"].
Proof.
  split; [apply inferDataTypes_dom|].
  induction headers as [|last headers IH] using rev_ind;
    intros header type Hlookup.
  - unfold FileProcessing.inferDataTypes in Hlookup. simpl in Hlookup.
    by rewrite lookup_empty in Hlookup.
  - rewrite inferDataTypes_snoc in Hlookup.
    apply lookup_insert_Some in Hlookup as [[<- <-]|[Hne Hlookup]].
    + split; [|apply inferColumn_range].
      apply elem_of_app. right. left.
    + destruct (IH _ _ Hlookup) as [Hin Htype]. split; [|done].
      apply elem_of_app. by left.
Qed.
End mapping_facts.
